(** * apod_desktop: the content-addressed image cache

    A shallow embedding of [apod_desktop.py] and the properties of its
    cache: file-name derivation, date validation, the SQLite index
    ([image_data]), the check-before-insert protocol of
    [add_apod_to_cache], and the script's [main].

    Conventions.
    - A Python [str] is a list of Unicode code points ([pystr]); [bytes]
      is a list of [Byte.byte].
    - Python integers are [Z].
    - A function of the script that touches the process or the disk is a
      computation in the monad [M]: it takes the [World] and gives back an
      [outcome] (a value, or the exception that left the function) and the
      new [World].  The world survives an exception, as it does in Python.
    - What the standard library and the sibling modules [apod_api] and
      [image_lib] provide is gathered in the record [Externals].
    - [print] calls are left out: nothing below depends on the text
      written to the terminal.  The one exception is the [print] inside
      the [try] block of [add_apod_to_db], where a failure of the
      terminal changes what the function returns. *)

From Stdlib Require Import List ZArith NArith Lia Bool String Ascii.
From Stdlib Require Import Strings.Byte.
Import ListNotations.
Local Open Scope Z_scope.

(* ================================================================= *)
(** ** Python strings *)

Definition pystr := list N.

(** [u "text"] is the Python string with the code points of an ASCII
    literal. *)
Definition u (s : string) : pystr :=
  map N_of_ascii (list_ascii_of_string s).

Definition cp_space : N := 32.
Definition cp_underscore : N := 95.
Definition cp_dot : N := 46.
Definition cp_quote : N := 39.
Definition cp_tab : N := 9.

Definition cp_between (lo hi c : N) : bool := ((lo <=? c) && (c <=? hi))%N.

(** [str.isspace] on one code point: the characters CPython's
    [_PyUnicode_IsWhitespace] accepts. *)
Definition isspace (c : N) : bool :=
  cp_between 9 13 c || cp_between 28 32 c
  || (c =? 133)%N || (c =? 160)%N || (c =? 5760)%N
  || cp_between 8192 8202 c
  || (c =? 8232)%N || (c =? 8233)%N || (c =? 8239)%N
  || (c =? 8287)%N || (c =? 12288)%N.

Fixpoint lstrip (s : pystr) : pystr :=
  match s with
  | c :: t => if isspace c then lstrip t else s
  | [] => []
  end.

Definition rstrip (s : pystr) : pystr := rev (lstrip (rev s)).

(** [s.strip()] *)
Definition strip (s : pystr) : pystr := rstrip (lstrip s).

(** [s.replace(old, new)] for one-character [old] and [new]. *)
Definition replace (old new : N) (s : pystr) : pystr :=
  map (fun c => if (c =? old)%N then new else c) s.

(** [s.split(sep)] for a one-character separator: the pieces between the
    separators, never an empty list. *)
Fixpoint split (sep : N) (s : pystr) : list pystr :=
  match s with
  | [] => [[]]
  | c :: t =>
      if (c =? sep)%N then [] :: split sep t
      else match split sep t with
           | piece :: pieces => (c :: piece) :: pieces
           | [] => [[c]]
           end
  end.

(** [l[-1]] on a list of strings ([split] never returns an empty list,
    so the index is always in range there). *)
Definition last_item (l : list pystr) : pystr := last l [].

(** [sep.join(parts)] *)
Fixpoint join (sep : pystr) (parts : list pystr) : pystr :=
  match parts with
  | [] => []
  | [p] => p
  | p :: rest => p ++ sep ++ join sep rest
  end.

(** The character class [[A-Za-z0-9_]]. *)
Definition is_word (c : N) : bool :=
  cp_between 65 90 c || cp_between 97 122 c || cp_between 48 57 c
  || (c =? cp_underscore)%N.

(** [re.sub('[^A-Za-z0-9_]+', '', s)]: the scan copies a character of the
    class and, where a match starts, drops the run of characters outside
    the class (one character of the run per step). *)
Fixpoint re_sub_nonword (s : pystr) : pystr :=
  match s with
  | [] => []
  | c :: t => if is_word c then c :: re_sub_nonword t else re_sub_nonword t
  end.

(** [s.upper()]: character by character; ASCII letters are mapped here,
    the full case mapping of a character outside ASCII is the Unicode
    database's ([upper_full]). *)
Definition upper_cp (upper_full : N -> list N) (c : N) : list N :=
  if cp_between 97 122 c then [(c - 32)%N]
  else if (c <? 128)%N then [c]
  else upper_full c.

Definition upper (upper_full : N -> list N) (s : pystr) : pystr :=
  flat_map (upper_cp upper_full) s.

(* ================================================================= *)
(** ** Bytes and hexadecimal digests *)

Definition bytes := list byte.

Definition hex_digit_lower (n : N) : N :=
  (if n <? 10 then 48 + n else 87 + n)%N.

Definition hex_digit_upper (n : N) : N :=
  (if n <? 10 then 48 + n else 55 + n)%N.

Definition hex_of_byte (digit : N -> N) (b : byte) : pystr :=
  [digit (Byte.to_N b / 16)%N; digit (Byte.to_N b mod 16)%N].

(** [h.hexdigest()] of a digest: two lower-case hexadecimal digits per
    byte. *)
Definition hexdigest_of (digest : bytes) : pystr :=
  flat_map (hex_of_byte hex_digit_lower) digest.

(** The same digest written with upper-case digits. *)
Definition upper_hex_of (digest : bytes) : pystr :=
  flat_map (hex_of_byte hex_digit_upper) digest.

(* ================================================================= *)
(** ** Dates *)

(** [datetime.date]: compared field by field, year first. *)
Record date := mkDate { year : Z; month : Z; day : Z }.

Definition date_ltb (a b : date) : bool :=
  (year a <? year b)
  || ((year a =? year b)
      && ((month a <? month b)
          || ((month a =? month b) && (day a <? day b)))).

Definition date_gtb (a b : date) : bool := date_ltb b a.

Definition date_eqb (a b : date) : bool :=
  (year a =? year b) && (month a =? month b) && (day a =? day b).

Definition MIN_APOD_DATE : date := mkDate 1999 7 14.

(* ================================================================= *)
(** ** The index table and the world *)

(** One row of [image_data]. *)
Record Row := mkRow {
  id : Z;
  title : pystr;
  explanation : pystr;
  file_path : pystr;
  sha256 : pystr }.

(** The dictionary [apod_api.get_apod_info] returns: the two entries the
    script reads and the remaining ones, which only [get_apod_image_url]
    looks at. *)
Record ApodDict := mkApodDict {
  d_title : pystr;
  d_explanation : pystr;
  d_others : list (pystr * pystr) }.

(** The dictionary [get_apod_info] of the script builds. *)
Record ApodInfo := mkApodInfo {
  i_title : pystr;
  i_explanation : pystr;
  i_file_path : pystr }.

(** What the script can observe or change.
    - [argv], [today]: [sys.argv] and [date.today()].
    - [cache_dir_exists]: [os.path.isdir(image_cache_dir)].
    - [image_data]: the committed rows of the table in [NASA.db], in
      rowid order; [None] while the table does not exist.
    - [files]: the files written under the cache directory, latest first.
    - [background]: the image last handed to the desktop.
    - [faults]: the schedule of environment failures.  Each operation that
      can fail for reasons outside the program (opening the database,
      running a statement, committing, creating a directory, writing a
      file) takes the head of the schedule: [true] makes it fail.  An
      exhausted schedule means no further failure. *)
Record World := mkWorld {
  argv : list pystr;
  today : date;
  cache_dir_exists : bool;
  image_data : option (list Row);
  files : list (pystr * bytes);
  background : option pystr;
  faults : list bool }.

Definition set_cache_dir_exists (b : bool) (w : World) : World :=
  mkWorld (argv w) (today w) b (image_data w) (files w) (background w)
          (faults w).

Definition set_image_data (t : option (list Row)) (w : World) : World :=
  mkWorld (argv w) (today w) (cache_dir_exists w) t (files w)
          (background w) (faults w).

Definition set_files (f : list (pystr * bytes)) (w : World) : World :=
  mkWorld (argv w) (today w) (cache_dir_exists w) (image_data w) f
          (background w) (faults w).

Definition set_background (b : option pystr) (w : World) : World :=
  mkWorld (argv w) (today w) (cache_dir_exists w) (image_data w) (files w)
          b (faults w).

Definition set_faults (f : list bool) (w : World) : World :=
  mkWorld (argv w) (today w) (cache_dir_exists w) (image_data w) (files w)
          (background w) f.

(* ================================================================= *)
(** ** Computations *)

Inductive exn :=
| SystemExit (msg : string)
| ValueError
| TypeError
| OSError
| OperationalError
| ProgrammingError.

Inductive outcome (A : Type) :=
| Ok (a : A)
| Raise (e : exn).
Arguments Ok {A} a.
Arguments Raise {A} e.

Definition M (A : Type) : Type := World -> outcome A * World.

Definition ret {A} (a : A) : M A := fun w => (Ok a, w).

Definition raise {A} (e : exn) : M A := fun w => (Raise e, w).

Definition bind {A B} (c : M A) (k : A -> M B) : M B :=
  fun w =>
    match c w with
    | (Ok a, w') => k a w'
    | (Raise e, w') => (Raise e, w')
    end.

(** [try: c  except: h] with a bare [except], which catches everything. *)
Definition try_except {A} (c : M A) (h : exn -> M A) : M A :=
  fun w =>
    match c w with
    | (Ok a, w') => (Ok a, w')
    | (Raise e, w') => h e w'
    end.

Definition get_world : M World := fun w => (Ok w, w).

Definition modify (f : World -> World) : M unit := fun w => (Ok tt, f w).

(** [sys.exit(msg)] *)
Definition sys_exit {A} (msg : string) : M A := raise (SystemExit msg).

Declare Scope monad_scope.
Delimit Scope monad_scope with monad.
Notation "x <- c ;; k" := (bind c (fun x => k))
  (at level 61, c at next level, right associativity) : monad_scope.
Notation "c ;;; k" := (bind c (fun _ => k))
  (at level 61, right associativity) : monad_scope.
Local Open Scope monad_scope.

(** Take the next entry of the fault schedule: [true] when the operation
    at hand is to fail. *)
Definition next_fault : M bool :=
  fun w =>
    match faults w with
    | f :: rest => (Ok f, set_faults rest w)
    | [] => (Ok false, w)
    end.

(** An operation that raises [e] when the environment fails it. *)
Definition fallible (e : exn) : M unit :=
  f <- next_fault ;;
  if f then raise e else ret tt.

(* ================================================================= *)
(** ** sqlite3 *)

(** A connection: the rows as the open transaction sees them, [None]
    while no transaction is open.  Dropping a connection without
    [commit] drops its transaction. *)
Record Cxn := mkCxn { pending : option (list Row) }.

(** [sqlite3.connect(image_cache_db)]: the file is created when missing,
    which needs its directory. *)
Definition connect : M Cxn :=
  fallible OperationalError ;;;
  w <- get_world ;;
  if cache_dir_exists w then ret (mkCxn None) else raise OperationalError.

(** The table a statement run on [cx] reads. *)
Definition visible (cx : Cxn) (w : World) : option (list Row) :=
  match pending cx with
  | Some rows => Some rows
  | None => image_data w
  end.

(** [CREATE TABLE IF NOT EXISTS image_data (...)]: the module opens no
    transaction for it, the table is there once the statement ran. *)
Definition execute_create_table (cx : Cxn) : M unit :=
  fallible OperationalError ;;;
  w <- get_world ;;
  match visible cx w with
  | Some _ => ret tt
  | None => modify (set_image_data (Some []))
  end.

Definition max_rowid (rows : list Row) : option Z :=
  match rows with
  | [] => None
  | r :: rest => Some (fold_left Z.max (map id rest) (id r))
  end.

Definition MAX_ROWID : Z := 9223372036854775807.

(** The rowid in sequence for a table whose key is [INTEGER PRIMARY
    KEY]: 1 in an empty table, else one more than the largest in use.
    There is none ([None]) once the largest 64-bit rowid is in use. *)
Definition next_rowid (rows : list Row) : option Z :=
  match max_rowid rows with
  | None => Some 1
  | Some m => if m <? MAX_ROWID then Some (m + 1) else None
  end.

Definition rowid_in_use (i : Z) (rows : list Row) : bool :=
  existsb (fun r => id r =? i) rows.

(** The rowid SQLite gives a row inserted without one: the one in
    sequence, and when there is none a rowid drawn at random until an
    unused one comes up.  [random_rowid] is that search, given the
    rowids in use; its answer counts only if it is a positive 64-bit
    rowid not in use, and no answer means that SQLite gave up (the
    statement fails, "database or disk is full"). *)
Definition new_rowid (random_rowid : list Z -> option Z) (rows : list Row)
  : option Z :=
  match next_rowid rows with
  | Some i => Some i
  | None =>
      match random_rowid (map id rows) with
      | Some i =>
          if (1 <=? i) && (i <=? MAX_ROWID) && negb (rowid_in_use i rows)
          then Some i else None
      | None => None
      end
  end.

(** The table keeps its rows in rowid order: a new row goes in front of
    the first row with a larger rowid. *)
Fixpoint insert_row (r : Row) (rows : list Row) : list Row :=
  match rows with
  | [] => [r]
  | x :: rest =>
      if id r <? id x then r :: x :: rest else x :: insert_row r rest
  end.

(** [INSERT INTO image_data (title, explanation, file_path, sha256)
    VALUES (?, ?, ?, ?)] with [image_data] bound to the parameters: opens
    the transaction and gives the cursor's [lastrowid]. *)
Definition execute_insert (random_rowid : list Z -> option Z) (cx : Cxn)
    (image_data_params : pystr * pystr * pystr * pystr)
  : M (Cxn * Z) :=
  fallible OperationalError ;;;
  w <- get_world ;;
  match visible cx w with
  | None => raise OperationalError
  | Some rows =>
      match new_rowid random_rowid rows with
      | None => raise OperationalError
      | Some i =>
          let '(t, e, p, s) := image_data_params in
          ret (mkCxn (Some (insert_row (mkRow i t e p s) rows)), i)
      end
  end.

(** A statement that interpolates [text] between single quotes is the
    intended one only when [text] holds no quote itself. *)
Definition quote_free (text : pystr) : bool :=
  forallb (fun c => negb (c =? cp_quote)%N) text.

(** The module refuses a statement that holds a NUL character. *)
Definition nul_free (text : pystr) : bool :=
  forallb (fun c => negb (c =? 0)%N) text.

Definition pystr_eqb (a b : pystr) : bool :=
  if list_eq_dec N.eq_dec a b then true else false.

(** [SELECT id FROM image_data WHERE sha256 = '<text>'], built by
    interpolation.  A NUL in the statement is refused with
    [ProgrammingError] before the database is asked.  Without a quote in
    [text] the statement is the intended one: the ids of the matching
    rows in rowid order.  With a quote the literal ends early and SQLite
    is handed some other statement; what that one gives on the table is
    SQLite's to say ([altered_select]; a statement that selects something
    other than integers is outside this model). *)
Definition execute_select_id
    (altered_select : pystr -> list Row -> outcome (list Z))
    (cx : Cxn) (text : pystr) : M (list Z) :=
  if negb (nul_free text) then raise ProgrammingError
  else
    fallible OperationalError ;;;
    w <- get_world ;;
    match visible cx w with
    | None => raise OperationalError
    | Some rows =>
        if quote_free text
        then ret (map id (filter (fun r => pystr_eqb (sha256 r) text) rows))
        else fun w' => (altered_select text rows, w')
    end.

(** [SELECT title, explanation, file_path FROM image_data WHERE id = <n>] *)
Definition execute_select_info (cx : Cxn) (n : Z)
  : M (list (pystr * pystr * pystr)) :=
  fallible OperationalError ;;;
  w <- get_world ;;
  match visible cx w with
  | None => raise OperationalError
  | Some rows =>
      ret (map (fun r => (title r, explanation r, file_path r))
               (filter (fun r => id r =? n) rows))
  end.

(** [SELECT title FROM image_data] *)
Definition execute_select_titles (cx : Cxn) : M (list pystr) :=
  fallible OperationalError ;;;
  w <- get_world ;;
  match visible cx w with
  | None => raise OperationalError
  | Some rows => ret (map title rows)
  end.

(** [cursor.fetchone()]: the first row of the result, or [None]. *)
Definition fetchone {A} (result : list A) : option A := hd_error result.

(** [db_cxn.commit()] *)
Definition commit (cx : Cxn) : M unit :=
  fallible OperationalError ;;;
  match pending cx with
  | Some rows => modify (set_image_data (Some rows))
  | None => ret tt
  end.

(** [db_cxn.close()]: releases the connection.  It has nothing left to
    write and reports no failure of the database. *)
Definition close (cx : Cxn) : M unit := ret tt.

(** [print("success")] followed by [db_cxn.close()], the last statements
    of the [try] block of [add_apod_to_db], run once the commit is done.
    An exception raised there (the terminal refuses the text, the run is
    interrupted) is caught by the bare [except] like any other, so this
    is a step that can fail; one entry of the fault schedule stands for
    the two statements.  A [print] outside a handler that failed would
    only end the run. *)
Definition report_and_close (cx : Cxn) : M unit :=
  fallible OSError ;;;
  close cx.

(* ================================================================= *)
(** ** What the script imports *)

(** The functions and constants the script takes from outside.
    - [image_cache_dir]: the module constant, [ImageCacheDir] next to the
      script.
    - [os_path_join]: [os.path.join].
    - [fromisoformat]: [date.fromisoformat]; [None] stands for its
      [ValueError].
    - [upper_full]: the upper-case mapping of a non-ASCII character.
    - [sha256_digest]: [hashlib.sha256(data).digest()].
    - [apod_api_get_apod_info], [get_apod_image_url]: module [apod_api].
    - [requests_get_content]: [requests.get(url).content].
    - [sqlite_random_rowid]: SQLite's search for an unused rowid once the
      largest one is taken (see [new_rowid]).
    - [sqlite_altered_select]: what SQLite gives for the fingerprint
      query when a quote in the fingerprint altered it (see
      [execute_select_id]).
    The service and the download are taken as functions of their
    argument; an exception of their own would leave the script before it
    reaches the cache. *)
Record Externals := mkExternals {
  image_cache_dir : pystr;
  os_path_join : pystr -> pystr -> pystr;
  fromisoformat : pystr -> option date;
  upper_full : N -> list N;
  sha256_digest : bytes -> bytes;
  apod_api_get_apod_info : date -> option ApodDict;
  get_apod_image_url : ApodDict -> pystr;
  requests_get_content : pystr -> bytes;
  sqlite_random_rowid : list Z -> option Z;
  sqlite_altered_select : pystr -> list Row -> outcome (list Z) }.

(** Modelled from the spec: [image_lib.save_image_file], whose source is
    not part of this file.  It writes the bytes to the path and tells the
    caller whether the write went through; a failed write leaves the
    files as they were. *)
Definition save_image_file (image_data_bytes : bytes) (image_path : pystr)
  : M bool :=
  f <- next_fault ;;
  w <- get_world ;;
  if f || negb (cache_dir_exists w) then ret false
  else modify (set_files ((image_path, image_data_bytes) :: files w)) ;;;
       ret true.

(** Modelled from the spec: [image_lib.set_desktop_background_image],
    whose source is not part of this file.  It hands the file to the
    desktop. *)
Definition set_desktop_background_image (image_path : pystr) : M unit :=
  modify (set_background (Some image_path)).

(** [os.makedirs(image_cache_dir)] *)
Definition makedirs : M unit :=
  fallible OSError ;;;
  modify (set_cache_dir_exists true).

(* ================================================================= *)
(** ** The script *)

Section Script.

Variable E : Externals.

(** [hashlib.sha256(data).hexdigest()] *)
Definition sha256_hexdigest (data : bytes) : pystr :=
  hexdigest_of (sha256_digest E data).

Definition str_upper (s : pystr) : pystr := upper (upper_full E) s.

Definition get_apod_date : M date :=
  w <- get_world ;;
  let num_params := Z.of_nat (List.length (argv w)) - 1 in
  if 1 <=? num_params then
    match fromisoformat E (nth 1 (argv w) []) with
    | None => sys_exit "Script execution aborted"
    | Some apod_date =>
        if date_ltb apod_date MIN_APOD_DATE
        then sys_exit "Script execution aborted"
        else if date_gtb apod_date (today w)
        then sys_exit "Script execution aborted"
        else ret apod_date
    end
  else ret (today w).

Definition init_apod_cache : M unit :=
  w <- get_world ;;
  (if negb (cache_dir_exists w) then makedirs else ret tt) ;;;
  db_cxn <- connect ;;
  execute_create_table db_cxn ;;;
  commit db_cxn ;;;
  close db_cxn.

(** The name part of [determine_apod_file_path]: the value of its local
    [file_name] before the directory is put in front. *)
Definition determine_apod_file_name (image_title image_url : pystr) : pystr :=
  let file_ext := last_item (split cp_dot image_url) in
  let file_name :=
    re_sub_nonword (replace cp_space cp_underscore (strip image_title)) in
  join [cp_dot] [file_name; file_ext].

Definition determine_apod_file_path (image_title image_url : pystr) : pystr :=
  os_path_join E (image_cache_dir E)
               (determine_apod_file_name image_title image_url).

(** The [try] block of [add_apod_to_db] up to and including the commit
    (lines 96 to 104); the value is the cursor's [lastrowid], which the
    block returns at its end. *)
Definition add_apod_to_db_write (title explanation file_path sha256 : pystr)
  : M (Cxn * Z) :=
  db_cxn <- connect ;;
  let image_data := (title, explanation, file_path, str_upper sha256) in
  r <- execute_insert (sqlite_random_rowid E) db_cxn image_data ;;
  let '(db_cxn, lastrowid) := r in
  commit db_cxn ;;;
  ret (db_cxn, lastrowid).

(** The body of the [try] block of [add_apod_to_db]. *)
Definition add_apod_to_db_try (title explanation file_path sha256 : pystr)
  : M Z :=
  r <- add_apod_to_db_write title explanation file_path sha256 ;;
  let '(db_cxn, lastrowid) := r in
  report_and_close db_cxn ;;;
  ret lastrowid.

Definition add_apod_to_db (title explanation file_path sha256 : pystr)
  : M Z :=
  try_except (add_apod_to_db_try title explanation file_path sha256)
             (fun _ => ret 0).

Definition get_apod_id_from_db (image_sha256 : pystr) : M Z :=
  db_cxn <- connect ;;
  query <- execute_select_id (sqlite_altered_select E) db_cxn
                             (str_upper image_sha256) ;;
  let query_results := fetchone query in
  close db_cxn ;;;
  match query_results with
  | Some found => ret found
  | None => ret 0
  end.

Definition add_apod_to_cache (apod_date : date) : M Z :=
  match apod_api_get_apod_info E apod_date with
  | None => ret 0
  | Some apod_info =>
      let apod_title := d_title apod_info in
      let apod_url := get_apod_image_url E apod_info in
      let apod_image_data := requests_get_content E apod_url in
      let apod_sha256 := sha256_hexdigest apod_image_data in
      apod_id <- get_apod_id_from_db apod_sha256 ;;
      if negb (apod_id =? 0) then ret apod_id
      else
        let apod_path := determine_apod_file_path apod_title apod_url in
        saved <- save_image_file apod_image_data apod_path ;;
        if negb saved then ret 0
        else
          let apod_explanation := d_explanation apod_info in
          add_apod_to_db apod_title apod_explanation apod_path apod_sha256
  end.

(** [get_apod_info]: subscripting the [None] that [fetchone] gives for an
    empty result raises [TypeError]. *)
Definition get_apod_info (image_id : Z) : M ApodInfo :=
  db_cxn <- connect ;;
  query <- execute_select_info db_cxn image_id ;;
  let query_result := fetchone query in
  close db_cxn ;;;
  match query_result with
  | Some (t, e, p) => ret (mkApodInfo t e p)
  | None => raise TypeError
  end.

Definition get_all_apod_titles : M (list pystr) :=
  db_cxn <- connect ;;
  image_titles <- execute_select_titles db_cxn ;;
  close db_cxn ;;;
  ret image_titles.

Definition main : M unit :=
  apod_date <- get_apod_date ;;
  init_apod_cache ;;;
  apod_id <- add_apod_to_cache apod_date ;;
  apod_info <- get_apod_info apod_id ;;
  set_desktop_background_image (i_file_path apod_info).

End Script.

(* ================================================================= *)
(** ** A concrete environment *)

(** SHA-256 (FIPS 180-4) on 32-bit words kept in [Z], the function behind
    [hashlib.sha256]. *)
Module SHA256.

Definition mask32 : Z := 4294967295.
Definition w32 (x : Z) : Z := Z.land x mask32.
Definition add32 (a b : Z) : Z := w32 (a + b).
Definition rotr (n x : Z) : Z :=
  Z.lor (Z.shiftr x n) (w32 (Z.shiftl x (32 - n))).
Definition shr (n x : Z) : Z := Z.shiftr x n.
Definition not32 (x : Z) : Z := Z.lxor x mask32.

Definition Ch (x y z : Z) : Z := Z.lxor (Z.land x y) (Z.land (not32 x) z).
Definition Maj (x y z : Z) : Z :=
  Z.lxor (Z.land x y) (Z.lxor (Z.land x z) (Z.land y z)).
Definition Sigma0 (x : Z) : Z :=
  Z.lxor (rotr 2 x) (Z.lxor (rotr 13 x) (rotr 22 x)).
Definition Sigma1 (x : Z) : Z :=
  Z.lxor (rotr 6 x) (Z.lxor (rotr 11 x) (rotr 25 x)).
Definition sigma0 (x : Z) : Z :=
  Z.lxor (rotr 7 x) (Z.lxor (rotr 18 x) (shr 3 x)).
Definition sigma1 (x : Z) : Z :=
  Z.lxor (rotr 17 x) (Z.lxor (rotr 19 x) (shr 10 x)).

Definition K : list Z :=
  [ 1116352408; 1899447441; 3049323471; 3921009573; 961987163; 1508970993;
    2453635748; 2870763221; 3624381080; 310598401; 607225278; 1426881987;
    1925078388; 2162078206; 2614888103; 3248222580; 3835390401; 4022224774;
    264347078; 604807628; 770255983; 1249150122; 1555081692; 1996064986;
    2554220882; 2821834349; 2952996808; 3210313671; 3336571891; 3584528711;
    113926993; 338241895; 666307205; 773529912; 1294757372; 1396182291;
    1695183700; 1986661051; 2177026350; 2456956037; 2730485921; 2820302411;
    3259730800; 3345764771; 3516065817; 3600352804; 4094571909; 275423344;
    430227734; 506948616; 659060556; 883997877; 958139571; 1322822218;
    1537002063; 1747873779; 1955562222; 2024104815; 2227730452; 2361852424;
    2428436474; 2756734187; 3204031479; 3329325298 ].

(** Big-endian bytes of a number, [n] of them. *)
Fixpoint be_bytes (n : nat) (x : Z) : list Z :=
  match n with
  | O => []
  | S k => be_bytes k (x / 256) ++ [x mod 256]
  end.

Definition be_word (bs : list Z) : Z :=
  fold_left (fun acc b => acc * 256 + b) bs 0.

(** The message followed by the bit 1, zeros, and its length in bits on
    eight bytes: a multiple of 64 bytes. *)
Definition pad (msg : list Z) : list Z :=
  let len := Z.of_nat (List.length msg) in
  let zeros := Z.to_nat ((55 - len) mod 64) in
  msg ++ [128] ++ repeat 0 zeros ++ be_bytes 8 (8 * len).

Fixpoint words (n : nat) (bs : list Z) : list Z :=
  match n with
  | O => []
  | S k => be_word (firstn 4 bs) :: words k (skipn 4 bs)
  end.

(** Extend the 16 words of a block by [n] more. *)
Fixpoint schedule (n : nat) (w : list Z) : list Z :=
  match n with
  | O => w
  | S k =>
      let t := List.length w in
      let at_ (back : nat) := nth (t - back) w 0 in
      schedule k
        (w ++ [add32 (add32 (sigma1 (at_ 2%nat)) (at_ 7%nat))
                     (add32 (sigma0 (at_ 15%nat)) (at_ 16%nat))])
  end.

Definition state : Type := Z * Z * Z * Z * Z * Z * Z * Z.

Definition round (s : state) (kw : Z * Z) : state :=
  let '(a, b, c, d, e, f, g, h) := s in
  let '(k, w) := kw in
  let t1 := add32 (add32 (add32 h (Sigma1 e)) (add32 (Ch e f g) k)) w in
  let t2 := add32 (Sigma0 a) (Maj a b c) in
  (add32 t1 t2, a, b, c, add32 d t1, e, f, g).

Definition compress (s : state) (block : list Z) : state :=
  let w := schedule 48 (words 16 block) in
  let '(a, b, c, d, e, f, g, h) := fold_left round (combine K w) s in
  let '(a0, b0, c0, d0, e0, f0, g0, h0) := s in
  (add32 a0 a, add32 b0 b, add32 c0 c, add32 d0 d,
   add32 e0 e, add32 f0 f, add32 g0 g, add32 h0 h).

Fixpoint blocks (n : nat) (s : state) (bs : list Z) : state :=
  match n with
  | O => s
  | S k => blocks k (compress s (firstn 64 bs)) (skipn 64 bs)
  end.

Definition initial : state :=
  (1779033703, 3144134277, 1013904242, 2773480762,
   1359893119, 2600822924, 528734635, 1541459225).

Definition byte_of_Z (z : Z) : byte :=
  match Byte.of_N (Z.to_N (z mod 256)) with
  | Some b => b
  | None => x00
  end.

Definition digest (data : bytes) : bytes :=
  let msg := pad (map (fun b => Z.of_N (Byte.to_N b)) data) in
  let '(a, b, c, d, e, f, g, h) :=
    blocks (List.length msg / 64) initial msg in
  map byte_of_Z (flat_map (be_bytes 4) [a; b; c; d; e; f; g; h]).

End SHA256.

(** [bytes] of an ASCII literal, as in [b"ABC"]. *)
Definition b_lit (s : string) : bytes :=
  map byte_of_ascii (list_ascii_of_string s).

(** An environment to run the script in: POSIX paths, dates written
    [YYYY-MM-DD], SHA-256, and a small picture service. *)
Module Sample.

(** [posixpath.join] of two components. *)
Definition posix_join (a b : pystr) : pystr :=
  match b with
  | 47%N :: _ => b
  | _ =>
      match rev a with
      | [] => b
      | 47%N :: _ => a ++ b
      | _ => a ++ [47%N] ++ b
      end
  end.

Definition digit_value (c : N) : option Z :=
  if cp_between 48 57 c then Some (Z.of_N c - 48) else None.

Fixpoint number (acc : Z) (s : pystr) : option Z :=
  match s with
  | [] => Some acc
  | c :: t =>
      match digit_value c with
      | Some d => number (10 * acc + d) t
      | None => None
      end
  end.

Definition is_leap (y : Z) : bool :=
  ((y mod 4 =? 0) && negb (y mod 100 =? 0)) || (y mod 400 =? 0).

Definition days_in_month (y m : Z) : Z :=
  if m =? 2 then (if is_leap y then 29 else 28)
  else if (m =? 4) || (m =? 6) || (m =? 9) || (m =? 11) then 30
  else 31.

(** The extended calendar format, [YYYY-MM-DD], of a valid date. *)
Definition iso_date (s : pystr) : option date :=
  match s with
  | [y1; y2; y3; y4; 45%N; m1; m2; 45%N; d1; d2] =>
      match number 0 [y1; y2; y3; y4], number 0 [m1; m2], number 0 [d1; d2] with
      | Some y, Some m, Some d =>
          if (1 <=? y) && (1 <=? m) && (m <=? 12)
             && (1 <=? d) && (d <=? days_in_month y m)
          then Some (mkDate y m d) else None
      | _, _, _ => None
      end
  | _ => None
  end.

Definition no_upper (c : N) : list N := [c].

(** A service with the same picture under two titles and addresses on two
    days, another picture on a third day, and nothing else. *)
Definition service (d : date) : option ApodDict :=
  if date_eqb d (mkDate 2024 1 1)
  then Some (mkApodDict (u "Test") (u "First light")
                        [(u "url", u "http://x/a.jpg")])
  else if date_eqb d (mkDate 2024 1 2)
  then Some (mkApodDict (u "Test again") (u "Same picture")
                        [(u "url", u "http://y/b.png")])
  else if date_eqb d (mkDate 2024 1 3)
  then Some (mkApodDict (u "NASA's Galaxy!!") (u "Another picture")
                        [(u "url", u "http://x/y.jpg")])
  else None.

Fixpoint lookup (key : pystr) (entries : list (pystr * pystr)) : pystr :=
  match entries with
  | [] => []
  | (k, v) :: rest => if pystr_eqb k key then v else lookup key rest
  end.

Definition image_url (info : ApodDict) : pystr :=
  lookup (u "url") (d_others info).

Definition download (url : pystr) : bytes :=
  if pystr_eqb url (u "http://x/y.jpg") then b_lit "XYZ" else b_lit "ABC".

(** The first positive rowid not in use. *)
Definition free_rowid (used : list Z) : option Z :=
  find (fun i => negb (existsb (Z.eqb i) used))
       (map Z.of_nat (seq 1 (S (List.length used)))).

(** An altered fingerprint query that lets every row through. *)
Definition every_id (text : pystr) (rows : list Row) : outcome (list Z) :=
  Ok (map id rows).

Definition env : Externals :=
  mkExternals (u "/home/me/ImageCacheDir") posix_join iso_date no_upper
              SHA256.digest service image_url download
              free_rowid every_id.

(** A machine on which the script never ran: no cache directory, no
    table, no file, and nothing that fails. *)
Definition fresh (args : list pystr) (now : date) : World :=
  mkWorld args now false None [] None [].

Definition script : pystr := u "apod_desktop.py".

Definition day1 : date := mkDate 2024 1 1.
Definition day2 : date := mkDate 2024 1 2.
Definition day3 : date := mkDate 2024 1 3.
Definition day4 : date := mkDate 2024 1 4.

(** The machine after [init_apod_cache]. *)
Definition prepared : World :=
  Eval vm_compute in
    snd (init_apod_cache (fresh [script] (mkDate 2024 1 5))).

(** The machine after the picture of the first day was cached. *)
Definition cached : World :=
  Eval vm_compute in snd (add_apod_to_cache env day1 prepared).

(** [w] with the given fault schedule. *)
Definition failing (schedule : list bool) (w : World) : World :=
  set_faults schedule w.

End Sample.

(** A second service: two different pictures whose titles differ only in
    punctuation, both served as [.jpg]. *)
Module Twins.

Definition service (d : date) : option ApodDict :=
  if date_eqb d (mkDate 2024 1 1)
  then Some (mkApodDict (u "Moon!") (u "Full moon")
                        [(u "url", u "http://x/y.jpg")])
  else if date_eqb d (mkDate 2024 1 2)
  then Some (mkApodDict (u "Moon?") (u "New moon")
                        [(u "url", u "http://z/w.jpg")])
  else None.

Definition env : Externals :=
  mkExternals (u "/home/me/ImageCacheDir") Sample.posix_join Sample.iso_date
              Sample.no_upper SHA256.digest service Sample.image_url
              Sample.download Sample.free_rowid Sample.every_id.

End Twins.

(* ================================================================= *)
(** ** Vocabulary of the statements *)

Definition all_space (s : pystr) : Prop := forallb isspace s = true.

Definition starts_clean (s : pystr) : Prop :=
  match s with
  | c :: _ => isspace c = false
  | [] => True
  end.

(** [core] is [s] without its leading and trailing whitespace. *)
Definition stripped_of (s core : pystr) : Prop :=
  exists lead trail,
    s = lead ++ core ++ trail /\ all_space lead /\ all_space trail
    /\ starts_clean core /\ starts_clean (rev core).

(** [ext] is what follows the final dot of [url], or all of [url] when it
    has no dot. *)
Definition final_piece (url ext : pystr) : Prop :=
  ~ In cp_dot ext /\ (url = ext \/ exists pre, url = pre ++ cp_dot :: ext).

Definition space_to_underscore (c : N) : N :=
  if (c =? cp_space)%N then cp_underscore else c.

(** The file name in the words of the specification: trim, turn every
    remaining whitespace character into an underscore, keep letters,
    digits and underscores, add the dot and the extension. *)
Definition spec_derive_file_name (title url : pystr) : pystr :=
  filter is_word
         (map (fun c => if isspace c then cp_underscore else c) (strip title))
  ++ cp_dot :: last_item (split cp_dot url).

(** Ids grow along the table and start above [lo]. *)
Fixpoint ascending (lo : Z) (rows : list Row) : bool :=
  match rows with
  | [] => true
  | r :: rest => (lo <? id r) && ascending (id r) rest
  end.

(** A table as the script builds it: ids from 1 upwards in rowid order,
    and no fingerprint twice. *)
Definition table_ok (rows : list Row) : Prop :=
  ascending 0 rows = true /\ NoDup (map sha256 rows).

Definition index_ok (w : World) : Prop :=
  match image_data w with
  | Some rows => table_ok rows
  | None => True
  end.

(** The id the fingerprint query finds in [rows]. *)
Definition found_id (fp : pystr) (rows : list Row) : Z :=
  match filter (fun r => pystr_eqb (sha256 r) fp) rows with
  | r :: _ => id r
  | [] => 0
  end.

(** The next [n] operations are not failed by the environment. *)
Definition clear (n : nat) (w : World) : Prop :=
  forallb negb (firstn n (faults w)) = true.

(** [w'] has the table, the files, the directory and the desktop of
    [w]: at most the fault schedule moved on. *)
Definition same_store (w w' : World) : Prop :=
  image_data w' = image_data w /\ files w' = files w
  /\ cache_dir_exists w' = cache_dir_exists w
  /\ background w' = background w.

(** No row of the index carries the fingerprint. *)
Definition not_indexed (fp : pystr) (w : World) : Prop :=
  forall rows, image_data w = Some rows ->
               Forall (fun r => sha256 r <> fp) rows.

(** [w'] runs with the command line and the clock of [w]. *)
Definition same_process (w w' : World) : Prop :=
  argv w' = argv w /\ today w' = today w.

(** Every row of the index points at a file that was written. *)
Definition backed (w : World) : Prop :=
  forall rows, image_data w = Some rows ->
               Forall (fun r => In (file_path r) (map fst (files w))) rows.

(** The bytes last written to [path], if any. *)
Fixpoint read_file (path : pystr) (written : list (pystr * bytes))
  : option bytes :=
  match written with
  | [] => None
  | (p, data) :: older =>
      if pystr_eqb p path then Some data else read_file path older
  end.

(** The record [get_apod_info] builds from a row. *)
Definition info_of (r : Row) : ApodInfo :=
  mkApodInfo (title r) (explanation r) (file_path r).

(** Unfold the primitives of a computation. *)
Ltac unfold_ops :=
  unfold try_except, connect, execute_insert, execute_select_id,
    execute_select_info, execute_select_titles, execute_create_table,
    commit, report_and_close, close, makedirs, save_image_file,
    set_desktop_background_image, fallible, visible, bind, next_fault,
    get_world, modify, ret, raise, sys_exit in *.

(** Enumerate the next three entries of the fault schedule. *)
Ltac split_faults w :=
  destruct (faults w) as [|[|] [|[|] [|[|] ?]]] eqn:?; simpl in *.


(** Follow a run recorded in [H] through every test it makes. *)
Ltac case_run H :=
  repeat (simpl in H;
          match type of H with
          | context [match ?x with _ => _ end] =>
              match x with
              | context [match _ with _ => _ end] => fail 1
              | _ => destruct x eqn:?
              end
          end);
  simpl in H.

(* ================================================================= *)
(** ** File names *)

Lemma re_sub_nonword_filter (s : pystr) :
  re_sub_nonword s = filter is_word s.
Proof.
  induction s as [|c t IH]; simpl; [reflexivity|].
  destruct (is_word c); now rewrite IH.
Qed.

Lemma lstrip_decompose (s : pystr) :
  exists lead, s = lead ++ lstrip s /\ all_space lead
               /\ starts_clean (lstrip s).
Proof.
  induction s as [|c t (lead & Heq & Hsp & Hcl)].
  - exists []. repeat split.
  - simpl. destruct (isspace c) eqn:Hc.
    + exists (c :: lead). repeat split.
      * simpl. now f_equal.
      * unfold all_space. simpl. now rewrite Hc.
      * exact Hcl.
    + exists []. repeat split. simpl. exact Hc.
Qed.

Lemma lstrip_clean_end (s : pystr) :
  starts_clean (rev s) -> starts_clean (rev (lstrip s)).
Proof.
  induction s as [|c t IH]; simpl; [trivial|].
  destruct (isspace c) eqn:Hc; [|trivial].
  intros H. apply IH.
  destruct (rev t) as [|x r] eqn:Hr; simpl in *; [trivial|exact H].
Qed.

Lemma all_space_rev (s : pystr) : all_space s -> all_space (rev s).
Proof.
  unfold all_space. rewrite !forallb_forall.
  intros H x Hx. apply H. now apply in_rev.
Qed.

Lemma strip_stripped_of (s : pystr) : stripped_of s (strip s).
Proof.
  unfold strip, rstrip.
  destruct (lstrip_decompose s) as (lead & Hs & Hlead & Hclean).
  destruct (lstrip_decompose (rev (lstrip s))) as (trail & Hr & Htrail & Hcl2).
  exists lead, (rev trail). repeat split.
  - rewrite <- rev_app_distr, <- Hr, rev_involutive. exact Hs.
  - exact Hlead.
  - now apply all_space_rev.
  - apply lstrip_clean_end. now rewrite rev_involutive.
  - now rewrite rev_involutive.
Qed.

Lemma split_nonempty (sep : N) (s : pystr) : split sep s <> [].
Proof.
  destruct s as [|c t]; simpl; [discriminate|].
  destruct (c =? sep)%N; [discriminate|].
  destruct (split sep t); discriminate.
Qed.

Lemma split_pieces (s : pystr) :
  Forall (fun p => ~ In cp_dot p) (split cp_dot s).
Proof.
  induction s as [|c t IH]; simpl.
  - constructor; [intros []|constructor].
  - destruct (c =? cp_dot)%N eqn:Hc.
    + constructor; [intros []|exact IH].
    + apply N.eqb_neq in Hc.
      destruct (split cp_dot t) as [|p ps].
      * constructor; [|constructor]. intros [H | []]. now apply Hc.
      * inversion IH as [|? ? Hp Hps]; subst.
        constructor; [|exact Hps].
        intros [H | H]; [now apply Hc | now apply Hp].
Qed.

Lemma join_split (s : pystr) : join [cp_dot] (split cp_dot s) = s.
Proof.
  induction s as [|c t IH]; simpl; [reflexivity|].
  pose proof (split_nonempty cp_dot t) as Hne.
  destruct (c =? cp_dot)%N eqn:Hc.
  - apply N.eqb_eq in Hc. subst c.
    destruct (split cp_dot t) as [|p ps]; [contradiction|].
    simpl in *. now rewrite IH.
  - destruct (split cp_dot t) as [|p ps]; [contradiction|].
    destruct ps as [|q qs]; simpl in *; now rewrite <- IH.
Qed.

Lemma join_last (l : list pystr) :
  l <> [] ->
  join [cp_dot] l = last l []
  \/ exists pre, join [cp_dot] l = pre ++ cp_dot :: last l [].
Proof.
  induction l as [|p ps IH]; [congruence|]. intros _.
  destruct ps as [|q qs]; [now left|]. right.
  destruct IH as [Heq | (pre & Heq)]; [discriminate| |].
  - exists p.
    change (join [cp_dot] (p :: q :: qs))
      with (p ++ [cp_dot] ++ join [cp_dot] (q :: qs)).
    change (last (p :: q :: qs) []) with (last (q :: qs) []).
    now rewrite Heq.
  - exists (p ++ cp_dot :: pre).
    change (join [cp_dot] (p :: q :: qs))
      with (p ++ [cp_dot] ++ join [cp_dot] (q :: qs)).
    change (last (p :: q :: qs) []) with (last (q :: qs) []).
    rewrite Heq, <- app_assoc. reflexivity.
Qed.

Lemma split_last (s : pystr) : final_piece s (last_item (split cp_dot s)).
Proof.
  unfold final_piece, last_item.
  pose proof (split_nonempty cp_dot s) as Hne.
  split.
  - pose proof (split_pieces s) as Hall.
    rewrite Forall_forall in Hall. apply Hall.
    destruct (exists_last Hne) as (front & x & Heq).
    rewrite Heq, last_last. apply in_or_app. right. now left.
  - destruct (join_last _ Hne) as [Heq | (pre & Heq)];
      rewrite join_split in Heq.
    + now left.
    + right. now exists pre.
Qed.

Lemma determine_apod_file_name_eq (image_title image_url : pystr) :
  determine_apod_file_name image_title image_url
  = filter is_word (map space_to_underscore (strip image_title))
    ++ cp_dot :: last_item (split cp_dot image_url).
Proof.
  unfold determine_apod_file_name. simpl.
  now rewrite re_sub_nonword_filter.
Qed.

Lemma lstrip_app_space (l x : pystr) :
  all_space l -> lstrip (l ++ x) = lstrip x.
Proof.
  unfold all_space. induction l as [|c l IH]; simpl; [trivial|].
  intros H. apply andb_true_iff in H as (Hc & Hl). rewrite Hc. now apply IH.
Qed.

Lemma lstrip_clean (x : pystr) : starts_clean x -> lstrip x = x.
Proof. destruct x as [|c t]; simpl; [trivial|]. now intros ->. Qed.

(** The trimmed core of a string is what [strip] returns. *)
Lemma stripped_of_strip (s core : pystr) :
  stripped_of s core -> strip s = core.
Proof.
  intros (lead & trail & -> & Hlead & Htrail & Hfront & Hback).
  unfold strip, rstrip. rewrite lstrip_app_space by exact Hlead.
  destruct core as [|c core'].
  - simpl. rewrite <- (app_nil_r trail) at 1.
    rewrite lstrip_app_space by exact Htrail. reflexivity.
  - rewrite (lstrip_clean ((c :: core') ++ trail)) by exact Hfront.
    rewrite rev_app_distr, lstrip_app_space by now apply all_space_rev.
    rewrite lstrip_clean by exact Hback. apply rev_involutive.
Qed.

Lemma app_sep_inj (x y a b : pystr) :
  ~ In cp_dot x -> ~ In cp_dot y ->
  x ++ cp_dot :: a = y ++ cp_dot :: b -> x = y.
Proof.
  revert y. induction x as [|c x IH]; intros [|d y] Hx Hy Heq; simpl in *.
  - reflexivity.
  - injection Heq as <- _. exfalso. apply Hx || apply Hy. now left.
  - injection Heq as -> _. exfalso. apply Hx. now left.
  - injection Heq as -> Heq. f_equal.
    apply IH with (y := y); [tauto|tauto|exact Heq].
Qed.

(** The part after the final dot is what [split] gives last. *)
Lemma final_piece_last (url ext : pystr) :
  final_piece url ext -> last_item (split cp_dot url) = ext.
Proof.
  intros (Hno & Hshape).
  destruct (split_last url) as (Hno' & Hshape').
  set (e := last_item (split cp_dot url)) in *.
  destruct Hshape as [-> | (pre & Hpre)];
    destruct Hshape' as [Heq | (pre' & Hpre')].
  - now symmetry.
  - exfalso. apply Hno. rewrite Hpre'. apply in_or_app. right. now left.
  - exfalso. apply Hno'. rewrite <- Heq, Hpre.
    apply in_or_app. right. now left.
  - assert (Hrev : rev e ++ cp_dot :: rev pre'
                   = rev ext ++ cp_dot :: rev pre).
    { rewrite Hpre in Hpre'.
      apply (f_equal (@rev N)) in Hpre'.
      rewrite !rev_app_distr in Hpre'. simpl in Hpre'.
      rewrite <- !app_assoc in Hpre'. simpl in Hpre'. now symmetry. }
    apply app_sep_inj in Hrev.
    + rewrite <- (rev_involutive e), Hrev. apply rev_involutive.
    + intros H. apply Hno'. now apply in_rev.
    + intros H. apply Hno. now apply in_rev.
Qed.

(** C5, as the code has it.  Every title has a core left by trimming the
    whitespace around it, and every address a part after its final dot
    (the whole address when it has no dot).  [determine_apod_file_path]
    turns each space character (U+0020) of the core into an underscore,
    keeps only ASCII letters, digits and underscores (so a tab or any
    other whitespace inside the title is dropped, not replaced), and
    appends a dot and that final part; the result is that name inside
    the cache directory.  For "NASA's Galaxy!!" and "http://x/y.jpg" the
    name is "NASAs_Galaxy.jpg". *)
Theorem determine_apod_file_path_transform (E : Externals) :
  (forall title url,
      exists core ext, stripped_of title core /\ final_piece url ext)
  /\ (forall title url core ext,
      stripped_of title core -> final_piece url ext ->
      determine_apod_file_path E title url
      = os_path_join E (image_cache_dir E)
          (filter is_word (map space_to_underscore core)
           ++ cp_dot :: ext))
  /\ determine_apod_file_path E (u "NASA's Galaxy!!") (u "http://x/y.jpg")
     = os_path_join E (image_cache_dir E) (u "NASAs_Galaxy.jpg").
Proof.
  split; [|split].
  - intros title url.
    exists (strip title), (last_item (split cp_dot url)).
    split; [apply strip_stripped_of|apply split_last].
  - intros title url core ext Hcore Hext.
    unfold determine_apod_file_path.
    rewrite determine_apod_file_name_eq.
    now rewrite (stripped_of_strip _ _ Hcore), (final_piece_last _ _ Hext).
  - reflexivity.
Qed.

Lemma determine_apod_file_path_transform_witness :
  stripped_of (u "  Moon over Rome ") (u "Moon over Rome")
  /\ final_piece (u "http://x/pics/moon.v2.jpeg") (u "jpeg")
  /\ determine_apod_file_path Sample.env (u "  Moon over Rome ")
       (u "http://x/pics/moon.v2.jpeg")
     = u "/home/me/ImageCacheDir/Moon_over_Rome.jpeg".
Proof.
  assert (Hcore : stripped_of (u "  Moon over Rome ") (u "Moon over Rome")).
  { exists (u "  "), (u " "). repeat split. }
  assert (Hext : final_piece (u "http://x/pics/moon.v2.jpeg") (u "jpeg")).
  { split.
    - vm_compute. intuition discriminate.
    - right. exists (u "http://x/pics/moon.v2"). reflexivity. }
  split; [exact Hcore|]. split; [exact Hext|].
  exact (proj1 (proj2 (determine_apod_file_path_transform Sample.env))
           _ _ _ _ Hcore Hext).
Defined.

(** C5, as the specification words it, fails: a tab inside the title is
    not turned into an underscore.  For the title "A<tab>B" the script's
    name is "AB.jpg" where the specification's is "A_B.jpg". *)
Lemma determine_apod_file_name_tab :
  let title := u "A" ++ [cp_tab] ++ u "B" in
  let url := u "http://x/y.jpg" in
  determine_apod_file_name title url = u "AB.jpg"
  /\ spec_derive_file_name title url = u "A_B.jpg"
  /\ determine_apod_file_name title url <> spec_derive_file_name title url.
Proof.
  cbv zeta. split; [reflexivity|]. split; [reflexivity|].
  vm_compute. discriminate.
Qed.

(** C6.  When nothing of the title survives the clean-up, the file name
    is the dot followed by the extension, here what follows the final dot
    of the address; for "!!!" and "http://x/y.png" it is ".png". *)
Theorem determine_apod_file_path_empty_title
    (E : Externals) (title url : pystr)
    (Hempty : re_sub_nonword
                (replace cp_space cp_underscore (strip title)) = []) :
  (determine_apod_file_path E title url
   = os_path_join E (image_cache_dir E)
       (cp_dot :: last_item (split cp_dot url))
   /\ final_piece url (last_item (split cp_dot url)))
  /\ determine_apod_file_path E (u "!!!") (u "http://x/y.png")
     = os_path_join E (image_cache_dir E) (u ".png").
Proof.
  split; [split|].
  - unfold determine_apod_file_path, determine_apod_file_name.
    cbv zeta. now rewrite Hempty.
  - apply split_last.
  - reflexivity.
Qed.

Lemma determine_apod_file_path_empty_title_witness :
  re_sub_nonword (replace cp_space cp_underscore (strip (u " ?!* "))) = []
  /\ determine_apod_file_path Sample.env (u " ?!* ") (u "http://x/y.tar.gz")
     = u "/home/me/ImageCacheDir/.gz".
Proof.
  split; [reflexivity|].
  exact (proj1 (proj1 (determine_apod_file_path_empty_title
                         Sample.env (u " ?!* ") (u "http://x/y.tar.gz")
                         eq_refl))).
Defined.

(** C10.  An address without a dot is taken whole as the extension: the
    file name is the cleaned title, a dot, and the address. *)
Theorem determine_apod_file_path_no_dot
    (E : Externals) (title url : pystr) (Hno : ~ In cp_dot url) :
  determine_apod_file_path E title url
  = os_path_join E (image_cache_dir E)
      (re_sub_nonword (replace cp_space cp_underscore (strip title))
       ++ [cp_dot] ++ url).
Proof.
  unfold determine_apod_file_path, determine_apod_file_name. cbv zeta.
  destruct (split_last url) as (_ & [Heq | (pre & Heq)]).
  - unfold join. now rewrite <- Heq.
  - exfalso. apply Hno. rewrite Heq. apply in_or_app. right. now left.
Qed.

Lemma determine_apod_file_path_no_dot_witness :
  ~ In cp_dot (u "localhost/img")
  /\ determine_apod_file_path Sample.env (u " Deep Field ") (u "localhost/img")
     = u "/home/me/ImageCacheDir/Deep_Field.localhost/img".
Proof.
  assert (Hno : ~ In cp_dot (u "localhost/img")).
  { vm_compute. intuition discriminate. }
  split; [exact Hno|].
  exact (determine_apod_file_path_no_dot
           Sample.env (u " Deep Field ") (u "localhost/img") Hno).
Defined.

(* ================================================================= *)
(** ** The date on the command line *)

Lemma get_apod_date_given (E : Externals) (w : World)
    (prog s : pystr) (rest : list pystr) (d : date) :
  argv w = prog :: s :: rest ->
  fromisoformat E s = Some d ->
  get_apod_date E w
  = (if date_ltb d MIN_APOD_DATE
     then Raise (SystemExit "Script execution aborted")
     else if date_gtb d (today w)
          then Raise (SystemExit "Script execution aborted")
          else Ok d, w).
Proof.
  intros Hargv Hparse.
  unfold get_apod_date, bind, get_world. rewrite Hargv.
  change (nth 1 (prog :: s :: rest) []) with s. rewrite Hparse.
  replace (1 <=? Z.of_nat (List.length (prog :: s :: rest)) - 1) with true.
  - destruct (date_ltb d MIN_APOD_DATE); [reflexivity|].
    destruct (date_gtb d (today w)); reflexivity.
  - symmetry. apply Z.leb_le. simpl List.length. lia.
Qed.

(** C4.  A date given on the command line that is before 1999-07-14, or
    after today, ends the run with the script's abort exit, before
    anything else is done; 1999-07-14 itself is accepted (today being no
    earlier than that day). *)
Theorem get_apod_date_bounds (E : Externals) (w : World)
    (prog s : pystr) (rest : list pystr) (d : date)
    (Hargv : argv w = prog :: s :: rest)
    (Hparse : fromisoformat E s = Some d) :
  (date_ltb d MIN_APOD_DATE = true ->
     get_apod_date E w = (Raise (SystemExit "Script execution aborted"), w)
     /\ main E w = (Raise (SystemExit "Script execution aborted"), w))
  /\ (date_gtb d (today w) = true ->
     get_apod_date E w = (Raise (SystemExit "Script execution aborted"), w)
     /\ main E w = (Raise (SystemExit "Script execution aborted"), w))
  /\ (d = MIN_APOD_DATE -> date_ltb (today w) MIN_APOD_DATE = false ->
     get_apod_date E w = (Ok MIN_APOD_DATE, w)).
Proof.
  pose proof (get_apod_date_given E w prog s rest d Hargv Hparse) as Hrun.
  split; [|split].
  - intros Hlt. split.
    + rewrite Hrun, Hlt. reflexivity.
    + unfold main, bind at 1. rewrite Hrun, Hlt. reflexivity.
  - intros Hgt. split.
    + rewrite Hrun, Hgt. now destruct (date_ltb d MIN_APOD_DATE).
    + unfold main, bind at 1. rewrite Hrun, Hgt.
      now destruct (date_ltb d MIN_APOD_DATE).
  - intros Hd Htoday. subst d. rewrite Hrun.
    unfold date_gtb. rewrite Htoday. reflexivity.
Qed.

Lemma get_apod_date_bounds_witness :
  let day_before := Sample.fresh [Sample.script; u "1999-07-13"]
                                 (mkDate 2024 1 5) in
  let tomorrow := Sample.fresh [Sample.script; u "2024-01-06"]
                               (mkDate 2024 1 5) in
  let first_day := Sample.fresh [Sample.script; u "1999-07-14"]
                                (mkDate 2024 1 5) in
  main Sample.env day_before
  = (Raise (SystemExit "Script execution aborted"), day_before)
  /\ main Sample.env tomorrow
     = (Raise (SystemExit "Script execution aborted"), tomorrow)
  /\ get_apod_date Sample.env first_day = (Ok MIN_APOD_DATE, first_day).
Proof.
  cbv zeta. split; [|split].
  - exact (proj2 (proj1 (get_apod_date_bounds Sample.env
             (Sample.fresh [Sample.script; u "1999-07-13"] (mkDate 2024 1 5))
             Sample.script (u "1999-07-13") [] (mkDate 1999 7 13)
             eq_refl eq_refl) eq_refl)).
  - exact (proj2 (proj1 (proj2 (get_apod_date_bounds Sample.env
             (Sample.fresh [Sample.script; u "2024-01-06"] (mkDate 2024 1 5))
             Sample.script (u "2024-01-06") [] (mkDate 2024 1 6)
             eq_refl eq_refl)) eq_refl)).
  - exact (proj2 (proj2 (get_apod_date_bounds Sample.env
             (Sample.fresh [Sample.script; u "1999-07-14"] (mkDate 2024 1 5))
             Sample.script (u "1999-07-14") [] MIN_APOD_DATE
             eq_refl eq_refl)) eq_refl eq_refl).
Defined.

(* ================================================================= *)
(** ** Fingerprints *)

Lemma upper_hex_of_byte (uf : N -> list N) (b : byte) :
  upper uf (hex_of_byte hex_digit_lower b) = hex_of_byte hex_digit_upper b.
Proof. destruct b; reflexivity. Qed.

(** Upper-casing a hexadecimal digest gives the digest in upper-case
    digits, whatever the case mapping does outside ASCII. *)
Lemma upper_hexdigest (uf : N -> list N) (digest : bytes) :
  upper uf (hexdigest_of digest) = upper_hex_of digest.
Proof.
  unfold upper, hexdigest_of, upper_hex_of.
  induction digest as [|b rest IH]; [reflexivity|].
  cbn [flat_map]. rewrite flat_map_app, IH. f_equal.
  apply (upper_hex_of_byte uf b).
Qed.

Lemma quote_free_upper_hex (digest : bytes) :
  quote_free (upper_hex_of digest) = true.
Proof.
  unfold quote_free, upper_hex_of.
  induction digest as [|b rest IH]; [reflexivity|].
  cbn [flat_map]. rewrite forallb_app, IH, andb_true_r.
  destruct b; reflexivity.
Qed.

Lemma str_upper_hexdigest (E : Externals) (data : bytes) :
  str_upper E (sha256_hexdigest E data)
  = upper_hex_of (sha256_digest E data).
Proof. apply upper_hexdigest. Qed.

(* ================================================================= *)
(** ** Rows and ids *)

Lemma pystr_eqb_eq (a b : pystr) : pystr_eqb a b = true <-> a = b.
Proof.
  unfold pystr_eqb. destruct (list_eq_dec N.eq_dec a b); split;
    congruence.
Qed.

Lemma fold_max_ge (l : list Z) (a : Z) :
  a <= fold_left Z.max l a /\ Forall (fun x => x <= fold_left Z.max l a) l.
Proof.
  revert a. induction l as [|x l IH]; intros a; simpl.
  - split; [lia|constructor].
  - destruct (IH (Z.max a x)) as (Hge & Hall). split; [lia|].
    constructor; [lia|exact Hall].
Qed.

(** The id given to a new row is above every id in use. *)
Lemma next_rowid_above (rows : list Row) (i : Z) :
  next_rowid rows = Some i -> Forall (fun r => id r < i) rows.
Proof.
  unfold next_rowid, max_rowid. destruct rows as [|r rest].
  - constructor.
  - destruct (fold_max_ge (map id rest) (id r)) as (Hge & Hall).
    destruct (_ <? MAX_ROWID); [|discriminate].
    intros Hi. injection Hi as <-.
    constructor; [lia|].
    rewrite Forall_map in Hall.
    eapply Forall_impl; [|exact Hall]. simpl. intros; lia.
Qed.

Lemma ascending_lower (lo lo' : Z) (rows : list Row) :
  lo' <= lo -> ascending lo rows = true -> ascending lo' rows = true.
Proof.
  destruct rows as [|r rest]; simpl; [trivial|].
  intros Hle H. apply andb_true_iff in H as (H1 & H2).
  apply Z.ltb_lt in H1. apply andb_true_iff. split; [|exact H2].
  apply Z.ltb_lt. lia.
Qed.

Lemma ascending_above (lo : Z) (rows : list Row) :
  ascending lo rows = true -> Forall (fun r => lo < id r) rows.
Proof.
  revert lo. induction rows as [|r rest IH]; intros lo; simpl.
  - constructor.
  - intros H. apply andb_true_iff in H as (H1 & H2).
    apply Z.ltb_lt in H1. constructor; [exact H1|].
    apply IH. eapply ascending_lower; [|exact H2]. lia.
Qed.

Lemma next_rowid_positive (rows : list Row) (i : Z) :
  ascending 0 rows = true -> next_rowid rows = Some i -> 1 <= i.
Proof.
  intros Hasc Hi. pose proof (next_rowid_above _ _ Hi) as Hall.
  destruct rows as [|r rest].
  - injection Hi as <-. lia.
  - inversion Hall as [|? ? Hr _]; subst. simpl in Hasc.
    apply andb_true_iff in Hasc as (Hlo & _). apply Z.ltb_lt in Hlo. lia.
Qed.

Lemma found_id_none (fp : pystr) (rows : list Row) :
  ascending 0 rows = true -> found_id fp rows = 0 ->
  Forall (fun r => sha256 r <> fp) rows.
Proof.
  intros Hasc Hfound. apply ascending_above in Hasc.
  unfold found_id in Hfound.
  destruct (filter _ rows) as [|r rest] eqn:Hf.
  - rewrite Forall_forall. intros r Hin Heq.
    assert (Hr : In r (filter (fun r => pystr_eqb (sha256 r) fp) rows)).
    { apply filter_In. split; [exact Hin|now apply pystr_eqb_eq]. }
    rewrite Hf in Hr. contradiction.
  - exfalso.
    assert (Hr : In r (filter (fun r => pystr_eqb (sha256 r) fp) rows))
      by (rewrite Hf; now left).
    apply filter_In in Hr as (Hin & _).
    rewrite Forall_forall in Hasc. specialize (Hasc r Hin). lia.
Qed.

Lemma found_id_some (fp : pystr) (rows : list Row) :
  found_id fp rows <> 0 ->
  exists r, In r rows /\ sha256 r = fp /\ id r = found_id fp rows.
Proof.
  unfold found_id. destruct (filter _ rows) as [|r rest] eqn:Hf.
  - congruence.
  - intros _. exists r.
    assert (Hr : In r (filter (fun r => pystr_eqb (sha256 r) fp) rows))
      by (rewrite Hf; now left).
    apply filter_In in Hr as (Hin & Heq). apply pystr_eqb_eq in Heq.
    auto.
Qed.

Lemma filter_none {A} (f : A -> bool) (l : list A) :
  Forall (fun x => f x = false) l -> filter f l = [].
Proof.
  induction 1 as [|x l Hx _ IH]; simpl; [reflexivity|]. now rewrite Hx.
Qed.

(** A row found by fingerprint in a table without repeated fingerprints
    is the row that carries it. *)
Lemma found_id_unique (fp : pystr) (rows : list Row) (r : Row) :
  NoDup (map sha256 rows) -> In r rows -> sha256 r = fp ->
  found_id fp rows = id r.
Proof.
  unfold found_id.
  induction rows as [|x rest IH]; intros Hnd Hin Hr; [contradiction|].
  simpl. inversion Hnd as [|? ? Hnotin Hnd']; subst.
  destruct (pystr_eqb (sha256 x) (sha256 r)) eqn:Heq.
  - apply pystr_eqb_eq in Heq. destruct Hin as [-> | Hin]; [reflexivity|].
    exfalso. apply Hnotin. rewrite Heq. now apply in_map.
  - destruct Hin as [-> | Hin].
    + assert (pystr_eqb (sha256 r) (sha256 r) = true)
        by now apply pystr_eqb_eq.
      congruence.
    + now apply IH.
Qed.

Lemma nul_free_upper_hex (digest : bytes) :
  nul_free (upper_hex_of digest) = true.
Proof.
  unfold nul_free, upper_hex_of.
  induction digest as [|b rest IH]; [reflexivity|].
  cbn [flat_map]. rewrite forallb_app, IH, andb_true_r.
  destruct b; reflexivity.
Qed.

Lemma insert_row_in (r x : Row) (rows : list Row) :
  In x (insert_row r rows) <-> x = r \/ In x rows.
Proof.
  induction rows as [|y rest IH]; simpl.
  - intuition.
  - destruct (id r <? id y); simpl; rewrite ?IH; intuition.
Qed.

Lemma insert_row_above (r : Row) (rows : list Row) :
  Forall (fun x => id x < id r) rows -> insert_row r rows = rows ++ [r].
Proof.
  induction 1 as [|x rest Hx _ IH]; simpl; [reflexivity|].
  replace (id r <? id x) with false by (symmetry; apply Z.ltb_ge; lia).
  now rewrite IH.
Qed.


Lemma rowid_not_in_use (i : Z) (rows : list Row) :
  rowid_in_use i rows = false <-> Forall (fun x => id x <> i) rows.
Proof.
  unfold rowid_in_use. induction rows as [|x rest IH]; simpl.
  - split; [constructor|reflexivity].
  - rewrite orb_false_iff, IH, Z.eqb_neq. split.
    + intros (Hx & Hrest). now constructor.
    + intros H. inversion H; subst. auto.
Qed.

Lemma insert_row_ascending (lo : Z) (r : Row) (rows : list Row) :
  ascending lo rows = true -> lo < id r ->
  Forall (fun x => id x <> id r) rows ->
  ascending lo (insert_row r rows) = true.
Proof.
  revert lo. induction rows as [|x rest IH]; intros lo Hasc Hlo Hfree; simpl.
  - apply andb_true_iff. split; [now apply Z.ltb_lt|reflexivity].
  - simpl in Hasc. apply andb_true_iff in Hasc as (Hx & Hrest).
    inversion Hfree as [|? ? Hne Hfree']; subst.
    destruct (id r <? id x) eqn:Hlt; simpl.
    + apply Z.ltb_lt in Hlt.
      rewrite Hrest, andb_true_r.
      apply andb_true_iff. split; apply Z.ltb_lt; lia.
    + apply Z.ltb_ge in Hlt. rewrite Hx. simpl.
      apply IH; [exact Hrest|lia|exact Hfree'].
Qed.

Lemma filter_insert_row (f : Row -> bool) (r : Row) (rows : list Row) :
  Forall (fun x => f x = false) rows -> f r = true ->
  filter f (insert_row r rows) = [r].
Proof.
  intros Hall Hr. induction Hall as [|x rest Hx Hrest IH]; simpl.
  - now rewrite Hr.
  - destruct (id r <? id x); simpl.
    + rewrite Hr, Hx. f_equal. now apply filter_none.
    + now rewrite Hx.
Qed.

Lemma insert_row_fingerprints (r : Row) (rows : list Row) :
  NoDup (map sha256 rows) ->
  Forall (fun x => sha256 x <> sha256 r) rows ->
  NoDup (map sha256 (insert_row r rows)).
Proof.
  induction rows as [|x rest IH]; intros Hnd Hfresh; simpl.
  - repeat constructor. intros [].
  - inversion Hnd as [|? ? Hnotin Hnd']; subst.
    inversion Hfresh as [|? ? Hne Hfresh']; subst.
    destruct (id r <? id x); simpl.
    + constructor; [|exact Hnd].
      intros Hin.
      change (In (sha256 r) (map sha256 (x :: rest))) in Hin.
      apply in_map_iff in Hin as (y & Hy & Hin).
      rewrite Forall_forall in Hfresh. now apply (Hfresh y Hin).
    + constructor; [|now apply IH].
      intros Hin. apply in_map_iff in Hin as (y & Hy & Hin).
      apply insert_row_in in Hin as [-> | Hin]; [congruence|].
      apply Hnotin. rewrite <- Hy. now apply in_map.
Qed.

(** What the rowid of a new row can be: not one in use, and either the
    one in sequence or, with the largest rowid taken, a positive one. *)
Lemma new_rowid_cases (rr : list Z -> option Z) (rows : list Row) (i : Z) :
  new_rowid rr rows = Some i ->
  Forall (fun x => id x <> i) rows
  /\ (next_rowid rows = Some i \/ (next_rowid rows = None /\ 1 <= i)).
Proof.
  unfold new_rowid. destruct (next_rowid rows) as [j|] eqn:Hnext.
  - intros Hi. injection Hi as ->. split; [|now left].
    eapply Forall_impl; [|exact (next_rowid_above _ _ Hnext)].
    simpl. intros; lia.
  - destruct (rr (map id rows)) as [j|]; [|discriminate].
    destruct ((1 <=? j) && (j <=? MAX_ROWID) && negb (rowid_in_use j rows))
      eqn:Hvalid; [|discriminate].
    intros Hi. injection Hi as ->.
    apply andb_true_iff in Hvalid as (Hrange & Hfree).
    apply andb_true_iff in Hrange as (Hlow & _).
    apply Z.leb_le in Hlow. apply negb_true_iff in Hfree.
    split; [now apply rowid_not_in_use|right; auto].
Qed.

Lemma new_rowid_next (rr : list Z -> option Z) (rows : list Row) (i : Z) :
  next_rowid rows = Some i -> new_rowid rr rows = Some i.
Proof. unfold new_rowid. now intros ->. Qed.

Lemma new_rowid_positive (rr : list Z -> option Z) (rows : list Row) (i : Z) :
  ascending 0 rows = true -> new_rowid rr rows = Some i -> 1 <= i.
Proof.
  intros Hasc Hi.
  destruct (new_rowid_cases _ _ _ Hi) as (_ & [Hnext | (_ & Hpos)]);
    [now apply (next_rowid_positive rows)|exact Hpos].
Qed.

Lemma found_id_insert (fp : pystr) (rows : list Row) (r : Row) :
  Forall (fun x => sha256 x <> fp) rows -> sha256 r = fp ->
  found_id fp (insert_row r rows) = id r.
Proof.
  intros Hall Hr. unfold found_id. rewrite filter_insert_row.
  - reflexivity.
  - eapply Forall_impl; [|exact Hall]. simpl. intros x Hx.
    destruct (pystr_eqb (sha256 x) fp) eqn:Heq; [|reflexivity].
    apply pystr_eqb_eq in Heq. contradiction.
  - now apply pystr_eqb_eq.
Qed.

Lemma table_ok_insert (rr : list Z -> option Z) (rows : list Row) (r : Row) :
  table_ok rows -> new_rowid rr rows = Some (id r) ->
  Forall (fun x => sha256 x <> sha256 r) rows ->
  table_ok (insert_row r rows).
Proof.
  intros (Hasc & Hnd) Hnew Hfresh.
  pose proof (new_rowid_positive _ _ _ Hasc Hnew) as Hpos.
  destruct (new_rowid_cases _ _ _ Hnew) as (Hfree & _).
  split.
  - apply insert_row_ascending; [exact Hasc|lia|exact Hfree].
  - now apply insert_row_fingerprints.
Qed.

(* ================================================================= *)
(** ** The index operations *)

Lemma same_store_refl (w : World) : same_store w w.
Proof. repeat split. Qed.

Lemma same_store_trans (a b c : World) :
  same_store a b -> same_store b c -> same_store a c.
Proof.
  unfold same_store. intros (H1 & H2 & H3 & H4) (K1 & K2 & K3 & K4).
  repeat split; congruence.
Qed.

(** Whatever the fingerprint query does, it changes nothing; a value it
    returns for a fingerprint without a quote is the id found in the
    committed rows. *)
Lemma get_apod_id_from_db_cases (E : Externals) (s : pystr)
    (w w' : World) (r : outcome Z) :
  get_apod_id_from_db E s w = (r, w') ->
  same_store w w'
  /\ forall i, r = Ok i ->
       cache_dir_exists w = true
       /\ exists rows, image_data w = Some rows
                       /\ (quote_free (str_upper E s) = true ->
                           i = found_id (str_upper E s) rows).
Proof.
  unfold get_apod_id_from_db, found_id, fetchone. unfold_ops.
  intros H.
  destruct (nul_free (str_upper E s)); simpl in H.
  2:{ split_faults w; case_run H; inversion H; subst;
        (split; [repeat split|]); intros; discriminate. }
  split_faults w; case_run H; inversion H; subst;
    (split; [repeat split|]); intros i Hi; try discriminate;
    injection Hi as <-; (split; [reflexivity|]); eexists;
    (split; [eauto|]); intros Hq; try discriminate;
    match goal with
    | Hq : hd_error (map id ?l) = _ |- _ =>
        destruct l; simpl in Hq; congruence
    end.
Qed.

(** With the directory there, a table, a clean argument and no failure
    in its two database steps, the fingerprint query gives the id
    found. *)
Lemma get_apod_id_from_db_run (E : Externals) (s : pystr) (w : World)
    (rows : list Row) :
  cache_dir_exists w = true -> image_data w = Some rows ->
  quote_free (str_upper E s) = true -> nul_free (str_upper E s) = true ->
  clear 2 w ->
  exists w', get_apod_id_from_db E s w
             = (Ok (found_id (str_upper E s) rows), w')
             /\ same_store w w' /\ faults w' = skipn 2 (faults w).
Proof.
  unfold clear, get_apod_id_from_db, found_id, fetchone. unfold_ops.
  intros Hdir Htab Hq Hnul Hclear. rewrite Hnul. simpl.
  split_faults w; try discriminate;
    repeat first [ rewrite Hdir | rewrite Htab | rewrite Hq
                 | match goal with Hf : faults w = _ |- _ => rewrite Hf end
                 | progress simpl ];
    destruct (filter _ rows); simpl; eexists; (split; [reflexivity|]);
    repeat split; auto.
Qed.

(** Writing the file never touches the table. *)
Lemma save_image_file_cases (data : bytes) (path : pystr)
    (w w' : World) (r : outcome bool) :
  save_image_file data path w = (r, w') ->
  image_data w' = image_data w
  /\ cache_dir_exists w' = cache_dir_exists w
  /\ background w' = background w
  /\ ((r = Ok true /\ files w' = (path, data) :: files w)
      \/ (r = Ok false /\ files w' = files w)).
Proof.
  unfold_ops. intros H.
  split_faults w; case_run H; inversion H; subst; simpl; auto 10.
Qed.

(** The [try] block up to the commit: when it raises the table is the
    one before, when it runs through the new row is committed under a
    rowid that was not in use. *)
Lemma add_apod_to_db_write_cases (E : Externals) (t e p s : pystr)
    (w w1 : World) (r : outcome (Cxn * Z)) :
  add_apod_to_db_write E t e p s w = (r, w1) ->
  files w1 = files w /\ cache_dir_exists w1 = cache_dir_exists w
  /\ background w1 = background w
  /\ argv w1 = argv w /\ today w1 = today w
  /\ match r with
     | Raise _ => image_data w1 = image_data w
     | Ok (_, i) =>
         cache_dir_exists w = true
         /\ exists rows,
              image_data w = Some rows
              /\ new_rowid (sqlite_random_rowid E) rows = Some i
              /\ image_data w1
                 = Some (insert_row (mkRow i t e p (str_upper E s)) rows)
     end.
Proof.
  unfold add_apod_to_db_write. unfold_ops. intros H.
  split_faults w; case_run H; inversion H; subst; simpl;
    repeat split; auto; eauto.
Qed.

Lemma report_and_close_cases (cx : Cxn) (w w' : World) (r : outcome unit) :
  report_and_close cx w = (r, w') ->
  same_store w w' /\ argv w' = argv w /\ today w' = today w.
Proof.
  unfold_ops. intros H.
  split_faults w; case_run H; inversion H; subst; repeat split.
Qed.

(** The insert never raises and never touches the files.  Either the
    commit was not reached, and it returns 0 with the table as it was; or
    one new row is committed, under a rowid that was not in use, and it
    returns that rowid, or 0 when the end of the [try] block raised. *)
Lemma add_apod_to_db_cases (E : Externals) (t e p s : pystr)
    (w w' : World) (r : outcome Z) :
  add_apod_to_db E t e p s w = (r, w') ->
  files w' = files w /\ cache_dir_exists w' = cache_dir_exists w
  /\ background w' = background w
  /\ ((r = Ok 0 /\ image_data w' = image_data w)
      \/ exists rows i,
          image_data w = Some rows
          /\ new_rowid (sqlite_random_rowid E) rows = Some i
          /\ cache_dir_exists w = true
          /\ image_data w'
             = Some (insert_row (mkRow i t e p (str_upper E s)) rows)
          /\ (r = Ok i \/ r = Ok 0)).
Proof.
  unfold add_apod_to_db, try_except, add_apod_to_db_try. intros H.
  unfold bind at 1 in H.
  destruct (add_apod_to_db_write E t e p s w) as [[[cx i]|e0] w1] eqn:Hw;
    apply add_apod_to_db_write_cases in Hw
      as (W1 & W2 & W3 & _ & _ & Hw).
  - destruct Hw as (Hdir & rows & Ht & Hnew & Ht1).
    unfold bind at 1 in H.
    destruct (report_and_close cx w1) as [[[]|e0] w2] eqn:Hlate;
      apply report_and_close_cases in Hlate as ((L1 & L2 & L3 & L4) & _);
      unfold ret in H; injection H as <- <-;
      (repeat split; try congruence); right; exists rows, i;
      repeat split; try congruence; auto.
  - unfold ret in H. injection H as <- <-.
    repeat split; try congruence. left. auto.
Qed.

(** Preparing the cache leaves existing rows alone and, when it returns,
    the table exists. *)
Lemma init_apod_cache_cases (w w' : World) (r : outcome unit) :
  init_apod_cache w = (r, w') ->
  files w' = files w /\ background w' = background w
  /\ (image_data w' = image_data w
      \/ (image_data w = None /\ image_data w' = Some []))
  /\ (r = Ok tt ->
      cache_dir_exists w' = true
      /\ image_data w' = match image_data w with
                         | Some rows => Some rows
                         | None => Some []
                         end).
Proof.
  unfold init_apod_cache. unfold_ops.
  intros H.
  destruct (cache_dir_exists w) eqn:Hdir; simpl in H;
    destruct (faults w) as [|[|] [|[|] [|[|] [|[|] ?]]]] eqn:?;
    simpl in *; case_run H; inversion H; subst; simpl;
    repeat split; auto; try discriminate.
Qed.

(* ================================================================= *)
(** ** The cache *)

(** The ways a call of [add_apod_to_cache] can go once the service has a
    picture for the date: the query raises; the query finds the
    fingerprint; the fingerprint is new and the write fails or the insert
    fails before its commit; the fingerprint is new and a row is
    committed (and its rowid returned, unless the end of the insert
    raised). *)
Lemma add_apod_to_cache_cases (E : Externals) (d : date) (info : ApodDict)
    (w w' : World) (r : outcome Z) :
  apod_api_get_apod_info E d = Some info ->
  add_apod_to_cache E d w = (r, w') ->
  let url := get_apod_image_url E info in
  let data := requests_get_content E url in
  let fp := upper_hex_of (sha256_digest E data) in
  let path := determine_apod_file_path E (d_title info) url in
  background w' = background w
  /\ ((exists e, r = Raise e /\ same_store w w')
      \/ (exists rows,
             image_data w = Some rows /\ found_id fp rows <> 0
             /\ r = Ok (found_id fp rows) /\ same_store w w'
             /\ cache_dir_exists w = true)
      \/ (exists rows,
             image_data w = Some rows /\ found_id fp rows = 0
             /\ r = Ok 0 /\ image_data w' = image_data w
             /\ cache_dir_exists w' = true
             /\ (files w' = files w \/ files w' = (path, data) :: files w))
      \/ (exists rows i,
             image_data w = Some rows /\ found_id fp rows = 0
             /\ new_rowid (sqlite_random_rowid E) rows = Some i
             /\ (r = Ok i \/ r = Ok 0)
             /\ cache_dir_exists w' = true
             /\ image_data w'
                = Some (insert_row
                          (mkRow i (d_title info) (d_explanation info)
                                 path fp) rows)
             /\ files w' = (path, data) :: files w)).
Proof.
  intros Hapi Hrun. cbv zeta.
  unfold add_apod_to_cache in Hrun. rewrite Hapi in Hrun.
  unfold bind at 1 in Hrun.
  destruct (get_apod_id_from_db E _ w) as [[i|e] w1] eqn:Hlook.
  2:{ injection Hrun as <- <-.
      apply get_apod_id_from_db_cases in Hlook as (Hsame & _).
      split; [apply Hsame|]. left. eauto. }
  apply get_apod_id_from_db_cases in Hlook as (Hsame & Hval).
  destruct (Hval i eq_refl) as (Hdir & rows & Htab & Hi).
  rewrite str_upper_hexdigest in Hi.
  specialize (Hi (quote_free_upper_hex _)).
  destruct Hsame as (S1 & S2 & S3 & S4).
  destruct (i =? 0) eqn:Hz; simpl in Hrun.
  - apply Z.eqb_eq in Hz. subst i.
    unfold bind at 1 in Hrun.
    destruct (save_image_file _ _ w1) as [[saved|e] w2] eqn:Hsave;
      apply save_image_file_cases in Hsave
        as (T1 & T2 & T3 & [(Hr & Hf) | (Hr & Hf)]);
      try discriminate; injection Hr as ->; simpl in Hrun.
    + apply add_apod_to_db_cases in Hrun
        as (U1 & U2 & U3 & [(Hr & Ht)
                           | (rows' & j & Ht & Hn & Hd & Ht' & Hr)]).
      * split; [congruence|]. right; right; left.
        exists rows. repeat split; try congruence. right. congruence.
      * split; [congruence|]. right; right; right.
        assert (rows' = rows) by congruence. subst rows'.
        rewrite str_upper_hexdigest in Ht'.
        exists rows, j. repeat split; try congruence.
    + unfold ret in Hrun. injection Hrun as <- <-.
      split; [congruence|]. right; right; left.
      exists rows. repeat split; try congruence. left. congruence.
  - apply Z.eqb_neq in Hz. unfold ret in Hrun. injection Hrun as <- <-.
    split; [exact S4|]. right; left.
    exists rows. subst i. repeat split; auto.
Qed.

(** A call leaves a well-formed index well formed, however it ends. *)
Lemma add_apod_to_cache_index_ok (E : Externals) (d : date)
    (w w' : World) (r : outcome Z) :
  index_ok w -> add_apod_to_cache E d w = (r, w') -> index_ok w'.
Proof.
  intros Hok Hrun.
  destruct (apod_api_get_apod_info E d) as [info|] eqn:Hapi.
  - destruct (add_apod_to_cache_cases E d info w w' r Hapi Hrun)
      as (_ & [(e & _ & Hs) | [(rows & _ & _ & _ & Hs & _)
               | [(rows & _ & _ & _ & Ht & _)
                 | (rows & i & Ht & Hmiss & Hnew & _ & _ & Ht' & _)]]]).
    + unfold index_ok in *. destruct Hs as (-> & _). exact Hok.
    + unfold index_ok in *. destruct Hs as (-> & _). exact Hok.
    + unfold index_ok in *. rewrite Ht. exact Hok.
    + unfold index_ok in *. rewrite Ht in Hok. rewrite Ht'.
      apply (table_ok_insert (sqlite_random_rowid E));
        [exact Hok|exact Hnew|].
      apply found_id_none; [apply Hok|exact Hmiss].
  - unfold add_apod_to_cache in Hrun. rewrite Hapi in Hrun.
    unfold ret in Hrun. injection Hrun as <- <-. exact Hok.
Qed.

(** The path taken when the picture is already in the index. *)
Lemma add_apod_to_cache_hit (E : Externals) (d : date) (info : ApodDict)
    (w : World) (rows : list Row) (r : Row) :
  apod_api_get_apod_info E d = Some info ->
  image_data w = Some rows -> table_ok rows -> In r rows ->
  sha256 r = upper_hex_of
               (sha256_digest E
                  (requests_get_content E (get_apod_image_url E info))) ->
  cache_dir_exists w = true -> clear 2 w ->
  exists w', add_apod_to_cache E d w = (Ok (id r), w')
             /\ same_store w w' /\ faults w' = skipn 2 (faults w).
Proof.
  intros Hapi Htab (Hasc & Hnd) Hin Hfp Hdir Hclear.
  unfold add_apod_to_cache. rewrite Hapi. unfold bind at 1.
  destruct (get_apod_id_from_db_run E
              (sha256_hexdigest E
                 (requests_get_content E (get_apod_image_url E info)))
              w rows Hdir Htab) as (w' & Hrun & Hsame & Hfaults);
    [rewrite str_upper_hexdigest; apply quote_free_upper_hex
    |rewrite str_upper_hexdigest; apply nul_free_upper_hex
    |exact Hclear|].
  rewrite Hrun, str_upper_hexdigest.
  rewrite (found_id_unique _ rows r Hnd Hin Hfp).
  apply ascending_above in Hasc. rewrite Forall_forall in Hasc.
  specialize (Hasc r Hin).
  replace (id r =? 0) with false by (symmetry; apply Z.eqb_neq; lia).
  simpl. exists w'. auto.
Qed.

(** C1.  Dedup idempotence.  (1) When the index already has a row with
    the fingerprint of the downloaded bytes, [add_apod_to_cache] returns
    that row's id and leaves table and files untouched.  (2) After a call
    returned an id, a second call that downloads the same bytes, under
    whatever title or address, returns the same id and again changes
    nothing.  (3) A table with at most one row per fingerprint stays so
    under every call.  The query of the second call is assumed to run
    (directory in place, no failure of the database in its two steps). *)
Theorem add_apod_to_cache_dedup (E : Externals) :
  (forall w d info rows r,
      apod_api_get_apod_info E d = Some info ->
      image_data w = Some rows -> table_ok rows ->
      In r rows ->
      sha256 r = upper_hex_of
                   (sha256_digest E
                      (requests_get_content E (get_apod_image_url E info))) ->
      cache_dir_exists w = true -> clear 2 w ->
      exists w', add_apod_to_cache E d w = (Ok (id r), w')
                 /\ same_store w w')
  /\ (forall w d1 d2 info1 info2 i w1,
      index_ok w ->
      apod_api_get_apod_info E d1 = Some info1 ->
      apod_api_get_apod_info E d2 = Some info2 ->
      requests_get_content E (get_apod_image_url E info2)
      = requests_get_content E (get_apod_image_url E info1) ->
      add_apod_to_cache E d1 w = (Ok i, w1) -> i <> 0 ->
      clear 2 w1 ->
      exists w2, add_apod_to_cache E d2 w1 = (Ok i, w2)
                 /\ same_store w1 w2)
  /\ (forall w d r w',
      index_ok w -> add_apod_to_cache E d w = (r, w') -> index_ok w').
Proof.
  assert (Hhit : forall w d info rows r,
      apod_api_get_apod_info E d = Some info ->
      image_data w = Some rows -> table_ok rows ->
      In r rows ->
      sha256 r = upper_hex_of
                   (sha256_digest E
                      (requests_get_content E (get_apod_image_url E info))) ->
      cache_dir_exists w = true -> clear 2 w ->
      exists w', add_apod_to_cache E d w = (Ok (id r), w')
                 /\ same_store w w').
  { intros w d info rows r Hapi Htab Hok Hin Hfp Hdir Hclear.
    destruct (add_apod_to_cache_hit E d info w rows r
                Hapi Htab Hok Hin Hfp Hdir Hclear)
      as (w' & Hrun & Hsame & _).
    exists w'. split; [exact Hrun|exact Hsame]. }
  split; [exact Hhit|]. split.
  - intros w d1 d2 info1 info2 i w1 Hok Hapi1 Hapi2 Hsame Hrun Hnz Hclear.
    pose proof (add_apod_to_cache_index_ok E d1 w w1 _ Hok Hrun) as Hok1.
    destruct (add_apod_to_cache_cases E d1 info1 w w1 _ Hapi1 Hrun)
      as (_ & [(e & He & _) | [(rows & Ht & Hf & Hr & Hs & Hdir)
               | [(rows & _ & _ & Hr & _)
                 | (rows & j & Ht & Hmiss & Hnext & Hr & Hdir & Ht' & _)]]]).
    + discriminate.
    + injection Hr as ->.
      destruct (found_id_some _ _ Hf) as (r & Hin & Hfp & Hid).
      destruct Hs as (S1 & _ & S3 & _).
      unfold index_ok in Hok1. rewrite S1, Ht in Hok1.
      rewrite <- Hid.
      apply (Hhit w1 d2 info2 rows r); auto; try congruence.
    + congruence.
    + destruct Hr as [Hr | Hr]; [|congruence]. injection Hr as ->.
      unfold index_ok in Hok1. rewrite Ht' in Hok1.
      set (row := mkRow j (d_title info1) (d_explanation info1)
                        (determine_apod_file_path E (d_title info1)
                           (get_apod_image_url E info1))
                        (upper_hex_of
                           (sha256_digest E
                              (requests_get_content E
                                 (get_apod_image_url E info1))))) in *.
      change j with (id row).
      apply (Hhit w1 d2 info2 (insert_row row rows) row); auto.
      * apply insert_row_in. now left.
      * rewrite Hsame. reflexivity.
  - intros w d r w'. apply add_apod_to_cache_index_ok.
Qed.

Lemma add_apod_to_cache_dedup_witness :
  add_apod_to_cache Sample.env Sample.day1 Sample.prepared
  = (Ok 1, Sample.cached)
  /\ exists w2,
       add_apod_to_cache Sample.env Sample.day2 Sample.cached = (Ok 1, w2)
       /\ same_store Sample.cached w2.
Proof.
  assert (Hfirst : add_apod_to_cache Sample.env Sample.day1 Sample.prepared
                   = (Ok 1, Sample.cached))
    by (vm_compute; reflexivity).
  split; [exact Hfirst|].
  refine (proj1 (proj2 (add_apod_to_cache_dedup Sample.env))
            Sample.prepared Sample.day1 Sample.day2
            (mkApodDict (u "Test") (u "First light")
                        [(u "url", u "http://x/a.jpg")])
            (mkApodDict (u "Test again") (u "Same picture")
                        [(u "url", u "http://y/b.png")])
            1 Sample.cached _ eq_refl eq_refl eq_refl Hfirst _ eq_refl).
  - split; [reflexivity|constructor].
  - discriminate.
Defined.

(** C2.  When the fingerprint query reports no record and writing the
    image then fails, [add_apod_to_cache] returns 0 without calling the
    insert: the table and the files are those before the call. *)
Theorem add_apod_to_cache_write_failure (E : Externals) (d : date)
    (info : ApodDict) (w w1 w2 : World)
    (Hapi : apod_api_get_apod_info E d = Some info)
    (Hmiss : get_apod_id_from_db E
               (sha256_hexdigest E
                  (requests_get_content E (get_apod_image_url E info))) w
             = (Ok 0, w1))
    (Hwrite : save_image_file
                (requests_get_content E (get_apod_image_url E info))
                (determine_apod_file_path E (d_title info)
                   (get_apod_image_url E info)) w1
              = (Ok false, w2)) :
  add_apod_to_cache E d w = (Ok 0, w2)
  /\ image_data w2 = image_data w
  /\ files w2 = files w.
Proof.
  split.
  - unfold add_apod_to_cache. rewrite Hapi.
    unfold bind at 1. rewrite Hmiss. simpl.
    unfold bind at 1. rewrite Hwrite. reflexivity.
  - apply get_apod_id_from_db_cases in Hmiss as ((S1 & S2 & _) & _).
    apply save_image_file_cases in Hwrite
      as (T1 & _ & _ & [(Hr & _) | (_ & Hf)]); [discriminate|].
    split; congruence.
Qed.

Lemma add_apod_to_cache_write_failure_witness :
  let w := Sample.failing [false; false; true] Sample.cached in
  exists w2,
    add_apod_to_cache Sample.env Sample.day3 w = (Ok 0, w2)
    /\ image_data w2 = image_data w /\ files w2 = files w.
Proof.
  cbv zeta.
  exists (Sample.failing [] Sample.cached).
  refine (add_apod_to_cache_write_failure Sample.env Sample.day3
            (mkApodDict (u "NASA's Galaxy!!") (u "Another picture")
                        [(u "url", u "http://x/y.jpg")])
            (Sample.failing [false; false; true] Sample.cached)
            (Sample.failing [true] Sample.cached)
            (Sample.failing [] Sample.cached) eq_refl _ _);
    vm_compute; reflexivity.
Defined.

(** C3 on the code.  [add_apod_to_db] is all or nothing as long as its
    [try] block raises no later than at the commit: it then returns 0 and
    the table is the one before the call, so a fingerprint that was not
    in the index is not in it afterwards.  When the block runs through,
    it returns the rowid of the one row it added, a rowid at least 1 and
    not in use before.  But the block goes on after the commit
    ([print("success")], [db_cxn.close()]); when an exception is raised
    there the function returns 0 although the row is committed and its
    fingerprint is in the index. *)
Theorem add_apod_to_db_outcomes (E : Externals)
    (t e p s : pystr) (w w' : World) (r : outcome Z)
    (Hok : index_ok w)
    (Hrun : add_apod_to_db E t e p s w = (r, w')) :
  match add_apod_to_db_write E t e p s w with
  | (Raise _, _) =>
      r = Ok 0 /\ image_data w' = image_data w
      /\ (not_indexed (str_upper E s) w -> not_indexed (str_upper E s) w')
  | (Ok (cx, i), w1) =>
      1 <= i
      /\ (exists rows,
             image_data w = Some rows
             /\ Forall (fun x => id x <> i) rows
             /\ image_data w'
                = Some (insert_row (mkRow i t e p (str_upper E s)) rows))
      /\ ~ not_indexed (str_upper E s) w'
      /\ match fst (report_and_close cx w1) with
         | Ok _ => r = Ok i
         | Raise _ => r = Ok 0
         end
  end.
Proof.
  unfold add_apod_to_db, try_except, add_apod_to_db_try in Hrun.
  unfold bind at 1 in Hrun.
  destruct (add_apod_to_db_write E t e p s w) as [[[cx i]|e0] w1] eqn:Hw;
    apply add_apod_to_db_write_cases in Hw as (_ & _ & _ & _ & _ & Hw).
  - destruct Hw as (_ & rows & Ht & Hnew & Ht1).
    unfold index_ok in Hok. rewrite Ht in Hok. destruct Hok as (Hasc & _).
    destruct (new_rowid_cases _ _ _ Hnew) as (Hfree & _).
    assert (Ht' : image_data w'
                  = Some (insert_row (mkRow i t e p (str_upper E s)) rows)
                  /\ match fst (report_and_close cx w1) with
                     | Ok _ => r = Ok i
                     | Raise _ => r = Ok 0
                     end).
    { unfold bind at 1 in Hrun.
      destruct (report_and_close cx w1) as [[[]|e0] w2] eqn:Hlate;
        apply report_and_close_cases in Hlate as ((L1 & _) & _);
        unfold ret in Hrun; injection Hrun as <- <-; simpl;
        split; congruence. }
    destruct Ht' as (Ht' & Hr).
    split; [now apply (new_rowid_positive (sqlite_random_rowid E) rows)|].
    split; [exists rows; auto|]. split; [|exact Hr].
    intros Hnone. specialize (Hnone _ Ht').
    rewrite Forall_forall in Hnone.
    apply (Hnone (mkRow i t e p (str_upper E s))); [|reflexivity].
    apply insert_row_in. now left.
  - unfold ret in Hrun. injection Hrun as <- <-.
    split; [reflexivity|]. split; [exact Hw|].
    unfold not_indexed. now rewrite Hw.
Qed.

Lemma add_apod_to_db_outcomes_witness :
  let path := u "/home/me/ImageCacheDir/New.jpg" in
  let new := mkRow 2 (u "New") (u "Text") path (u "00FF") in
  (* the commit fails: 0, and the table is the one before *)
  (let w := Sample.failing [false; false; true] Sample.cached in
   let run := add_apod_to_db Sample.env (u "New") (u "Text") path
                             (u "00ff") w in
   fst run = Ok 0 /\ image_data (snd run) = image_data w)
  (* the end of the block fails: 0, and the row is in the table *)
  /\ (let w := Sample.failing [false; false; false; true] Sample.cached in
      let run := add_apod_to_db Sample.env (u "New") (u "Text") path
                                (u "00ff") w in
      fst run = Ok 0
      /\ exists rows, image_data w = Some rows
                      /\ image_data (snd run) = Some (insert_row new rows))
  (* nothing fails: the new rowid *)
  /\ (let w := Sample.cached in
      let run := add_apod_to_db Sample.env (u "New") (u "Text") path
                                (u "00ff") w in
      fst run = Ok 2).
Proof.
  cbv zeta. split; [|split].
  - pose proof (add_apod_to_db_outcomes Sample.env
                  (u "New") (u "Text") (u "/home/me/ImageCacheDir/New.jpg")
                  (u "00ff")
                  (Sample.failing [false; false; true] Sample.cached)
                  _ _
                  ltac:(vm_compute; repeat constructor;
                        intros []; discriminate)
                  (surjective_pairing _)) as H.
    destruct H as (H1 & H2 & _). split; [exact H1|exact H2].
  - pose proof (add_apod_to_db_outcomes Sample.env
                  (u "New") (u "Text") (u "/home/me/ImageCacheDir/New.jpg")
                  (u "00ff")
                  (Sample.failing [false; false; false; true] Sample.cached)
                  _ _
                  ltac:(vm_compute; repeat constructor;
                        intros []; discriminate)
                  (surjective_pairing _)) as H.
    destruct H as (_ & (rows & Ht & _ & Ht') & _ & Hr).
    split; [exact Hr|]. exists rows. split; [exact Ht|exact Ht'].
  - pose proof (add_apod_to_db_outcomes Sample.env
                  (u "New") (u "Text") (u "/home/me/ImageCacheDir/New.jpg")
                  (u "00ff")
                  Sample.cached _ _
                  ltac:(vm_compute; repeat constructor;
                        intros []; discriminate)
                  (surjective_pairing _)) as H.
    destruct H as (_ & _ & _ & Hr). exact Hr.
Defined.

(* ================================================================= *)
(** ** Reading a record back *)

(** Looking an id up changes nothing, and returns a value only when a
    row has that id. *)
Lemma get_apod_info_cases (n : Z) (w w' : World) (r : outcome ApodInfo) :
  get_apod_info n w = (r, w') ->
  same_store w w'
  /\ match r with
     | Ok info =>
         exists rows row,
           image_data w = Some rows /\ In row rows /\ id row = n
           /\ info = mkApodInfo (title row) (explanation row)
                                (file_path row)
     | Raise e =>
         cache_dir_exists w = true -> clear 2 w -> image_data w <> None ->
         e = TypeError
     end.
Proof.
  unfold get_apod_info, fetchone, clear. unfold_ops. intros H.
  split_faults w; case_run H; inversion H; subst;
    (split; [repeat split|]); try congruence;
    try (intros; simpl in *; congruence);
    match goal with
    | Hq : hd_error (map _ (filter ?f ?l)) = Some _ |- _ =>
        destruct (filter f l) as [|row rest] eqn:Hf;
          simpl in Hq; [discriminate|];
          injection Hq as <- <- <-;
          assert (Hin : In row (filter f l)) by (rewrite Hf; now left);
          apply filter_In in Hin as (Hin & Hid); apply Z.eqb_eq in Hid;
          exists l, row; auto
    end.
Qed.

Lemma get_apod_info_raises (n : Z) (w : World) :
  (forall rows, image_data w = Some rows ->
                Forall (fun r => id r <> n) rows) ->
  exists e w',
    get_apod_info n w = (Raise e, w')
    /\ same_store w w'
    /\ (cache_dir_exists w = true -> clear 2 w -> image_data w <> None ->
        e = TypeError).
Proof.
  intros Hmissing.
  destruct (get_apod_info n w) as [[info|e] w'] eqn:Hrun;
    apply get_apod_info_cases in Hrun as (Hsame & Hval).
  - exfalso. destruct Hval as (rows & row & Ht & Hin & Hid & _).
    specialize (Hmissing rows Ht). rewrite Forall_forall in Hmissing.
    now apply (Hmissing row Hin).
  - exists e, w'. auto.
Qed.

(** C7, as the code has it.  For an id that no row of the index carries,
    [get_apod_info] returns no value: it raises.  When the query itself
    ran (directory and table in place, no failure of the database), the
    exception is the [TypeError] of subscripting the [None] that
    [fetchone] gave.  Nothing is changed. *)
Theorem get_apod_info_missing (n : Z) (w : World)
    (Hmissing : forall rows, image_data w = Some rows ->
                             Forall (fun r => id r <> n) rows) :
  exists e w',
    get_apod_info n w = (Raise e, w')
    /\ same_store w w'
    /\ (cache_dir_exists w = true -> clear 2 w -> image_data w <> None ->
        e = TypeError).
Proof. exact (get_apod_info_raises n w Hmissing). Qed.

Lemma get_apod_info_missing_witness :
  exists w', get_apod_info 7 Sample.cached = (Raise TypeError, w')
             /\ same_store Sample.cached w'.
Proof.
  destruct (get_apod_info_missing 7 Sample.cached) as (e & w' & Hrun & Hs & He).
  - intros rows Hrows. injection Hrows as <-.
    repeat constructor. discriminate.
  - exists w'. rewrite <- (He eq_refl eq_refl ltac:(discriminate)).
    split; [exact Hrun|exact Hs].
Defined.

(** C7, as stated, fails: the index of the sample machine has one row,
    with id 1; asking for id 7 gives no record-shaped value but a
    [TypeError]. *)
Lemma get_apod_info_no_record_value :
  fst (get_apod_info 7 Sample.cached) = Raise TypeError
  /\ ~ exists info, fst (get_apod_info 7 Sample.cached) = Ok info.
Proof.
  split; [reflexivity|]. intros (info & H). discriminate.
Qed.

(* ================================================================= *)
(** ** The run *)

(** C8 on the code.  When [add_apod_to_cache] returns 0, [main] goes on
    to [get_apod_info 0]; on an index as the script builds it no row has
    id 0, so the run ends with the exception of that lookup and the
    desktop is not touched. *)
Theorem main_after_failed_resolve (E : Externals)
    (w w0 w1 w2 : World) (d : date)
    (Hdate : get_apod_date E w = (Ok d, w0))
    (Hinit : init_apod_cache w0 = (Ok tt, w1))
    (Hzero : add_apod_to_cache E d w1 = (Ok 0, w2))
    (Hok : index_ok w2) :
  exists e w3,
    get_apod_info 0 w2 = (Raise e, w3)
    /\ main E w = (Raise e, w3)
    /\ background w3 = background w2
    /\ (clear 2 w2 -> image_data w2 <> None -> e = TypeError).
Proof.
  destruct (get_apod_info_raises 0 w2) as (e & w3 & Hrun & Hs & He).
  { intros rows Hrows. unfold index_ok in Hok. rewrite Hrows in Hok.
    destruct Hok as (Hasc & _). apply ascending_above in Hasc.
    eapply Forall_impl; [|exact Hasc]. simpl. intros; lia. }
  exists e, w3. split; [exact Hrun|]. split; [|split].
  - unfold main. unfold bind at 1. rewrite Hdate.
    unfold bind at 1. rewrite Hinit.
    unfold bind at 1. rewrite Hzero.
    unfold bind at 1. rewrite Hrun. reflexivity.
  - apply Hs.
  - intros Hclear Htab. apply He; [|exact Hclear|exact Htab].
    apply init_apod_cache_cases in Hinit as (_ & _ & _ & Hdir).
    destruct (Hdir eq_refl) as (Hdir1 & _).
    destruct (apod_api_get_apod_info E d) as [info|] eqn:Hapi.
    + destruct (add_apod_to_cache_cases E d info w1 w2 _ Hapi Hzero)
        as (_ & [(? & Hr & _) | [(rows & _ & Hf & Hr & _)
                 | [(rows & _ & _ & _ & _ & Hd & _)
                   | (rows & j & _ & _ & _ & _ & Hd & _)]]]);
        try discriminate; try assumption.
      injection Hr as Hr. congruence.
    + unfold add_apod_to_cache in Hzero. rewrite Hapi in Hzero.
      unfold ret in Hzero. injection Hzero as <-. exact Hdir1.
Qed.

Lemma main_after_failed_resolve_witness :
  let w := Sample.fresh [Sample.script; u "2024-01-04"] (mkDate 2024 1 5) in
  exists w3, main Sample.env w = (Raise TypeError, w3)
             /\ background w3 = None.
Proof.
  cbv zeta.
  destruct (main_after_failed_resolve Sample.env
              (Sample.fresh [Sample.script; u "2024-01-04"] (mkDate 2024 1 5))
              (Sample.fresh [Sample.script; u "2024-01-04"] (mkDate 2024 1 5))
              (set_image_data (Some [])
                 (set_cache_dir_exists true
                    (Sample.fresh [Sample.script; u "2024-01-04"]
                                  (mkDate 2024 1 5))))
              (set_image_data (Some [])
                 (set_cache_dir_exists true
                    (Sample.fresh [Sample.script; u "2024-01-04"]
                                  (mkDate 2024 1 5))))
              Sample.day4 eq_refl eq_refl eq_refl
              (conj eq_refl (NoDup_nil _)))
    as (e & w3 & _ & Hmain & Hbg & He).
  exists w3. rewrite <- (He eq_refl ltac:(discriminate)).
  split; [exact Hmain|exact Hbg].
Defined.

(* ================================================================= *)
(** ** The first picture *)

(** C9.  On a machine whose index is empty or not yet created,
    [init_apod_cache] followed by a call of [add_apod_to_cache] that
    succeeds (returns an id other than 0) leaves exactly one row: its id
    is 1 and its fingerprint is the SHA-256 digest of the downloaded
    bytes in upper-case hexadecimal; the bytes are the one file
    written. *)
Theorem first_write (E : Externals) (d : date) (info : ApodDict)
    (w0 w w' : World) (i : Z)
    (Hfresh : image_data w0 = None \/ image_data w0 = Some [])
    (Hinit : init_apod_cache w0 = (Ok tt, w))
    (Hapi : apod_api_get_apod_info E d = Some info)
    (Hrun : add_apod_to_cache E d w = (Ok i, w'))
    (Hsuccess : i <> 0) :
  let url := get_apod_image_url E info in
  let data := requests_get_content E url in
  let path := determine_apod_file_path E (d_title info) url in
  i = 1
  /\ image_data w'
     = Some [mkRow 1 (d_title info) (d_explanation info) path
                   (upper_hex_of (sha256_digest E data))]
  /\ str_upper E (sha256_hexdigest E data)
     = upper_hex_of (sha256_digest E data)
  /\ files w' = (path, data) :: files w0.
Proof.
  cbv zeta.
  apply init_apod_cache_cases in Hinit as (Hfiles & _ & _ & Hdone).
  destruct (Hdone eq_refl) as (_ & Htab).
  assert (Hempty : image_data w = Some []).
  { destruct Hfresh as [H | H]; rewrite H in Htab; exact Htab. }
  destruct (add_apod_to_cache_cases E d info w w' _ Hapi Hrun)
    as (_ & [(e & He & _) | [(rows & Ht & Hf & _)
             | [(rows & _ & _ & Hr & _)
               | (rows & j & Ht & _ & Hnext & Hr & _ & Ht' & Hf)]]]).
  - discriminate.
  - exfalso. apply Hf.
    assert (rows = []) by congruence. subst rows. reflexivity.
  - congruence.
  - assert (rows = []) by congruence. subst rows.
    destruct Hr as [Hr | Hr]; [|congruence].
    injection Hr as ->. injection Hnext as <-.
    split; [reflexivity|]. split; [exact Ht'|].
    split; [apply str_upper_hexdigest|]. congruence.
Qed.

Lemma first_write_witness :
  let w0 := Sample.fresh [Sample.script] (mkDate 2024 1 5) in
  let run := add_apod_to_cache Sample.env Sample.day1 Sample.prepared in
  fst run = Ok 1
  /\ image_data (snd run)
     = Some [mkRow 1 (u "Test") (u "First light")
               (u "/home/me/ImageCacheDir/Test.jpg")
               (u "B5D4045C3F466FA91FE2CC6ABE79232A1A57CDF104F7A26E716E0A1E2789DF78")]
  /\ files (snd run)
     = [(u "/home/me/ImageCacheDir/Test.jpg", b_lit "ABC")].
Proof.
  cbv zeta.
  assert (Hrun : add_apod_to_cache Sample.env Sample.day1 Sample.prepared
                 = (Ok 1, Sample.cached)) by (vm_compute; reflexivity).
  pose proof (first_write Sample.env Sample.day1
                (mkApodDict (u "Test") (u "First light")
                            [(u "url", u "http://x/a.jpg")])
                (Sample.fresh [Sample.script] (mkDate 2024 1 5))
                Sample.prepared Sample.cached 1
                (or_introl eq_refl) eq_refl eq_refl Hrun
                ltac:(discriminate)) as (_ & Htab & _ & Hfiles).
  rewrite Hrun. cbn [fst snd].
  split; [reflexivity|]. split.
  - rewrite Htab. vm_compute. reflexivity.
  - rewrite Hfiles. vm_compute. reflexivity.
Defined.

(* ================================================================= *)
(** ** The sample environment *)

Example sha256_ABC :
  sha256_hexdigest Sample.env (b_lit "ABC")
  = u "b5d4045c3f466fa91fe2cc6abe79232a1a57cdf104f7a26e716e0a1e2789df78".
Proof. vm_compute. reflexivity. Qed.

Example sha256_empty :
  sha256_hexdigest Sample.env []
  = u "e3b0c44298fc1c149afbf4c8996fb92427ae41e4649b934ca495991b7852b855".
Proof. vm_compute. reflexivity. Qed.

Example sha256_two_blocks :
  sha256_hexdigest Sample.env
    (b_lit "abcdbcdecdefdefgefghfghighijhijkijkljklmklmnlmnomnopnopq")
  = u "248d6a61d20638b8e5c026930c3e6039a33ce45964ff2167f6ecedd419db06c1".
Proof. vm_compute. reflexivity. Qed.

Example iso_date_examples :
  Sample.iso_date (u "1999-07-14") = Some MIN_APOD_DATE
  /\ Sample.iso_date (u "2023-02-29") = None
  /\ Sample.iso_date (u "2024-02-29") = Some (mkDate 2024 2 29)
  /\ Sample.iso_date (u "14/07/1999") = None.
Proof. repeat split. Qed.

Example main_sets_background :
  let run := main Sample.env
               (Sample.fresh [Sample.script; u "2024-01-01"]
                             (mkDate 2024 1 5)) in
  fst run = Ok tt
  /\ background (snd run) = Some (u "/home/me/ImageCacheDir/Test.jpg").
Proof. vm_compute. split; reflexivity. Qed.

(* ================================================================= *)
(** ** Further properties: the index *)

Lemma init_apod_cache_dir (w w' : World) (r : outcome unit) :
  init_apod_cache w = (r, w') ->
  cache_dir_exists w = true -> cache_dir_exists w' = true.
Proof.
  unfold init_apod_cache. unfold_ops. intros H Hdir.
  rewrite Hdir in H. simpl in H.
  split_faults w; case_run H; inversion H; subst; simpl; congruence.
Qed.

(** [init_apod_cache] can be run on every start: it never drops or
    changes a row or a file, a run that returns leaves the directory and
    the table in place, and a further run after that changes nothing. *)
Theorem init_apod_cache_idempotent (w w1 : World) (r : outcome unit)
    (Hrun : init_apod_cache w = (r, w1)) :
  (forall rows, image_data w = Some rows -> image_data w1 = Some rows)
  /\ files w1 = files w
  /\ (r = Ok tt ->
      cache_dir_exists w1 = true /\ image_data w1 <> None
      /\ forall r2 w2, init_apod_cache w1 = (r2, w2) -> same_store w1 w2).
Proof.
  pose proof (init_apod_cache_cases w w1 r Hrun)
    as (Hfiles & Hbg & Htab & Hdone).
  split; [|split; [exact Hfiles|]].
  - intros rows Hrows. destruct Htab as [-> | (Hnone & _)]; congruence.
  - intros Hr. destruct (Hdone Hr) as (Hdir & Ht).
    assert (Hsome : image_data w1 <> None)
      by (rewrite Ht; destruct (image_data w); discriminate).
    split; [exact Hdir|]. split; [exact Hsome|].
    intros r2 w2 Hrun2.
    pose proof (init_apod_cache_dir _ _ _ Hrun2 Hdir) as Hdir2.
    apply init_apod_cache_cases in Hrun2 as (Hf2 & Hbg2 & Ht2 & _).
    repeat split; try congruence.
    destruct Ht2 as [Ht2 | (Hnone & _)]; [exact Ht2|contradiction].
Qed.

Lemma init_apod_cache_idempotent_witness :
  let w := Sample.failing [false; false; true] Sample.cached in
  image_data (snd (init_apod_cache w)) = image_data Sample.cached
  /\ files (snd (init_apod_cache w)) = files Sample.cached
  /\ same_store Sample.prepared (snd (init_apod_cache Sample.prepared)).
Proof.
  cbv zeta. split; [|split].
  - exact (proj1 (init_apod_cache_idempotent
                    (Sample.failing [false; false; true] Sample.cached)
                    _ _ (surjective_pairing _)) _ eq_refl).
  - exact (proj1 (proj2 (init_apod_cache_idempotent
                    (Sample.failing [false; false; true] Sample.cached)
                    _ _ (surjective_pairing _)))).
  - exact (proj2 (proj2 (proj2 (proj2 (init_apod_cache_idempotent
                    (Sample.fresh [Sample.script] (mkDate 2024 1 5))
                    Sample.prepared (Ok tt) eq_refl)) eq_refl))
             _ _ (surjective_pairing _)).
Defined.

(** The fingerprint query is sound and complete on an index as the
    script builds it, for a fingerprint that holds no quote (as every
    hexadecimal digest): the value 0 means that no row carries the
    fingerprint, any other value is the id of a row that carries it; the
    query changes nothing.  (A quote would alter the statement, and the
    value returned could then be the id of any row.) *)
Theorem get_apod_id_from_db_sound_complete (E : Externals) (s : pystr)
    (w w' : World) (i : Z)
    (Hok : index_ok w)
    (Hquote : quote_free (str_upper E s) = true)
    (Hrun : get_apod_id_from_db E s w = (Ok i, w')) :
  same_store w w'
  /\ ((i = 0 /\ not_indexed (str_upper E s) w)
      \/ (1 <= i
          /\ exists rows row,
               image_data w = Some rows /\ In row rows
               /\ sha256 row = str_upper E s /\ id row = i)).
Proof.
  apply get_apod_id_from_db_cases in Hrun as (Hsame & Hval).
  split; [exact Hsame|].
  destruct (Hval i eq_refl) as (_ & rows & Ht & Hi).
  specialize (Hi Hquote).
  unfold index_ok in Hok. rewrite Ht in Hok. destruct Hok as (Hasc & _).
  destruct (Z.eq_dec i 0) as [Hz | Hnz].
  - left. split; [exact Hz|].
    intros rows' Hrows'. assert (rows' = rows) by congruence. subst rows'.
    apply found_id_none; [exact Hasc|congruence].
  - right. rewrite Hi in Hnz.
    destruct (found_id_some _ _ Hnz) as (row & Hin & Hfp & Hid).
    split.
    + apply ascending_above in Hasc. rewrite Forall_forall in Hasc.
      specialize (Hasc row Hin). lia.
    + exists rows, row. repeat split; congruence.
Qed.

Lemma get_apod_id_from_db_sound_complete_witness :
  (exists row,
      In row [mkRow 1 (u "Test") (u "First light")
                (u "/home/me/ImageCacheDir/Test.jpg")
                (u "B5D4045C3F466FA91FE2CC6ABE79232A1A57CDF104F7A26E716E0A1E2789DF78")]
      /\ id row = 1)
  /\ not_indexed (str_upper Sample.env (u "00ff")) Sample.cached.
Proof.
  split.
  - destruct (get_apod_id_from_db_sound_complete Sample.env
                (u "b5d4045c3f466fa91fe2cc6abe79232a1a57cdf104f7a26e716e0a1e2789df78")
                Sample.cached Sample.cached 1)
      as (_ & [(Hz & _) | (_ & rows & row & Ht & Hin & _ & Hid)]).
    + split; [reflexivity|repeat constructor; intros []; discriminate].
    + vm_compute. reflexivity.
    + vm_compute. reflexivity.
    + discriminate.
    + injection Ht as <-. exists row. split; [exact Hin|exact Hid].
  - destruct (get_apod_id_from_db_sound_complete Sample.env (u "00ff")
                Sample.cached Sample.cached 0)
      as (_ & [(_ & Hnone) | (Hpos & _)]).
    + split; [reflexivity|repeat constructor; intros []; discriminate].
    + vm_compute. reflexivity.
    + vm_compute. reflexivity.
    + exact Hnone.
    + lia.
Defined.

Lemma get_apod_info_run (n : Z) (w : World) (rows : list Row) :
  cache_dir_exists w = true -> image_data w = Some rows -> clear 2 w ->
  exists w',
    get_apod_info n w
    = (match filter (fun r => id r =? n) rows with
       | row :: _ => Ok (info_of row)
       | [] => Raise TypeError
       end, w')
    /\ same_store w w'.
Proof.
  unfold clear, get_apod_info, fetchone, info_of. unfold_ops.
  intros Hdir Htab Hclear.
  split_faults w; try discriminate;
    repeat first [ rewrite Hdir | rewrite Htab
                 | match goal with Hf : faults w = _ |- _ => rewrite Hf end
                 | progress simpl ];
    destruct (filter _ rows); simpl; eexists; (split; [reflexivity|]);
    repeat split.
Qed.

(** What a successful insert leaves behind: the directory exists, and
    the table is the old one with the new row in its place. *)
Lemma add_apod_to_db_inserted (E : Externals) (t e p s : pystr)
    (w w' : World) (i : Z) :
  index_ok w ->
  add_apod_to_db E t e p s w = (Ok i, w') -> i <> 0 ->
  cache_dir_exists w' = true
  /\ exists rows,
       image_data w = Some rows
       /\ new_rowid (sqlite_random_rowid E) rows = Some i
       /\ ascending 0 rows = true
       /\ image_data w'
          = Some (insert_row (mkRow i t e p (str_upper E s)) rows).
Proof.
  intros Hok Hrun Hnz.
  destruct (add_apod_to_db_cases E t e p s w w' _ Hrun)
    as (_ & Hdir & _ & [(Hr & _) | (rows & j & Ht & Hn & Hd & Ht' & Hr)]).
  - congruence.
  - destruct Hr as [Hr | Hr]; [|congruence]. injection Hr as ->.
    split; [congruence|].
    exists rows. unfold index_ok in Hok. rewrite Ht in Hok.
    destruct Hok as (Hasc & _). auto.
Qed.

(** Insert, then look up.  After [add_apod_to_db] stored a fingerprint
    that the index did not have, [get_apod_id_from_db] with the same
    fingerprint returns the id the insert returned.  The query has to
    run: a fingerprint with a quote alters it, one with a NUL is refused
    by the module, though both can be stored. *)
Theorem insert_then_lookup (E : Externals) (t e p s : pystr)
    (w w1 : World) (i : Z)
    (Hok : index_ok w)
    (Hnew : not_indexed (str_upper E s) w)
    (Hquote : quote_free (str_upper E s) = true)
    (Hnul : nul_free (str_upper E s) = true)
    (Hins : add_apod_to_db E t e p s w = (Ok i, w1))
    (Hnz : i <> 0)
    (Hclear : clear 2 w1) :
  exists w2, get_apod_id_from_db E s w1 = (Ok i, w2) /\ same_store w1 w2.
Proof.
  destruct (add_apod_to_db_inserted E t e p s w w1 i Hok Hins Hnz)
    as (Hdir & rows & Ht & _ & _ & Ht').
  destruct (get_apod_id_from_db_run E s w1 _ Hdir Ht' Hquote Hnul Hclear)
    as (w2 & Hrun & Hsame & _).
  exists w2. split; [|exact Hsame].
  rewrite Hrun. f_equal. f_equal.
  apply (found_id_insert (str_upper E s) rows
           (mkRow i t e p (str_upper E s))); [now apply Hnew|reflexivity].
Qed.

Lemma insert_then_lookup_witness :
  let w1 := snd (add_apod_to_db Sample.env (u "New") (u "Text")
                   (u "/home/me/ImageCacheDir/New.jpg") (u "00ff")
                   Sample.cached) in
  exists w2, get_apod_id_from_db Sample.env (u "00ff") w1 = (Ok 2, w2)
             /\ same_store w1 w2.
Proof.
  cbv zeta.
  refine (insert_then_lookup Sample.env (u "New") (u "Text")
            (u "/home/me/ImageCacheDir/New.jpg") (u "00ff")
            Sample.cached _ 2 _ _ eq_refl eq_refl (surjective_pairing _) _
            eq_refl).
  - split; [reflexivity|repeat constructor; intros []; discriminate].
  - intros rows Hrows. injection Hrows as <-.
    repeat constructor. vm_compute. discriminate.
  - discriminate.
Defined.

(** Insert, then read back.  After a successful [add_apod_to_db],
    [get_apod_info] on the id it returned gives the title, explanation
    and file path that were inserted. *)
Theorem insert_then_get_apod_info (E : Externals) (t e p s : pystr)
    (w w1 : World) (i : Z)
    (Hok : index_ok w)
    (Hins : add_apod_to_db E t e p s w = (Ok i, w1))
    (Hnz : i <> 0)
    (Hclear : clear 2 w1) :
  exists w2, get_apod_info i w1 = (Ok (mkApodInfo t e p), w2)
             /\ same_store w1 w2.
Proof.
  destruct (add_apod_to_db_inserted E t e p s w w1 i Hok Hins Hnz)
    as (Hdir & rows & Ht & Hnew & _ & Ht').
  destruct (get_apod_info_run i w1 _ Hdir Ht' Hclear)
    as (w2 & Hrun & Hsame).
  exists w2. split; [|exact Hsame].
  rewrite Hrun, filter_insert_row; [reflexivity| |apply Z.eqb_refl].
  destruct (new_rowid_cases _ _ _ Hnew) as (Hfree & _).
  eapply Forall_impl; [|exact Hfree]. simpl. intros x Hx.
  now apply Z.eqb_neq.
Qed.

Lemma insert_then_get_apod_info_witness :
  let w1 := snd (add_apod_to_db Sample.env (u "New") (u "Text")
                   (u "/home/me/ImageCacheDir/New.jpg") (u "00ff")
                   Sample.cached) in
  exists w2,
    get_apod_info 2 w1
    = (Ok (mkApodInfo (u "New") (u "Text")
                      (u "/home/me/ImageCacheDir/New.jpg")), w2)
    /\ same_store w1 w2.
Proof.
  cbv zeta.
  refine (insert_then_get_apod_info Sample.env (u "New") (u "Text")
            (u "/home/me/ImageCacheDir/New.jpg") (u "00ff")
            Sample.cached _ 2 _ (surjective_pairing _) _ eq_refl).
  - split; [reflexivity|repeat constructor; intros []; discriminate].
  - discriminate.
Defined.

(** [get_apod_info] on an index with distinct ids: when the query runs,
    it returns the title, explanation and file path of the row with the
    id asked for, and it is read-only. *)
Theorem get_apod_info_found (n : Z) (w : World) (rows : list Row) (row : Row)
    (Hdir : cache_dir_exists w = true)
    (Htab : image_data w = Some rows)
    (Hasc : ascending 0 rows = true)
    (Hin : In row rows)
    (Hid : id row = n)
    (Hclear : clear 2 w) :
  exists w', get_apod_info n w = (Ok (info_of row), w') /\ same_store w w'.
Proof.
  destruct (get_apod_info_run n w rows Hdir Htab Hclear)
    as (w' & Hrun & Hsame).
  exists w'. split; [|exact Hsame]. rewrite Hrun.
  assert (Hfilter : filter (fun r => id r =? n) rows = [row]).
  { clear - Hasc Hin Hid. subst n. revert Hasc Hin. generalize 0.
    induction rows as [|x rest IH]; intros lo Hasc Hin; [contradiction|].
    simpl in Hasc. apply andb_true_iff in Hasc as (_ & Hrest).
    pose proof (ascending_above _ _ Hrest) as Habove.
    simpl. destruct Hin as [-> | Hin].
    - rewrite Z.eqb_refl. f_equal. apply filter_none.
      eapply Forall_impl; [|exact Habove]. simpl. intros y Hy.
      apply Z.eqb_neq. lia.
    - rewrite Forall_forall in Habove. specialize (Habove row Hin).
      replace (id x =? id row) with false
        by (symmetry; apply Z.eqb_neq; lia).
      now apply (IH (id x)). }
  now rewrite Hfilter.
Qed.

Lemma get_apod_info_found_witness :
  exists w',
    get_apod_info 1 Sample.cached
    = (Ok (mkApodInfo (u "Test") (u "First light")
                      (u "/home/me/ImageCacheDir/Test.jpg")), w')
    /\ same_store Sample.cached w'.
Proof.
  exact (get_apod_info_found 1 Sample.cached _
           (mkRow 1 (u "Test") (u "First light")
              (u "/home/me/ImageCacheDir/Test.jpg")
              (u "B5D4045C3F466FA91FE2CC6ABE79232A1A57CDF104F7A26E716E0A1E2789DF78"))
           eq_refl eq_refl eq_refl (or_introl eq_refl) eq_refl eq_refl).
Defined.

(* ================================================================= *)
(** ** Further properties: a whole run *)

Lemma get_apod_date_pure (E : Externals) (w w' : World) (r : outcome date) :
  get_apod_date E w = (r, w') -> w' = w.
Proof.
  unfold get_apod_date. unfold_ops. intros H.
  case_run H; inversion H; reflexivity.
Qed.

Lemma get_apod_date_same_process (E : Externals) (w w1 : World) :
  same_process w w1 -> fst (get_apod_date E w1) = fst (get_apod_date E w).
Proof.
  intros (Hargv & Htoday). unfold get_apod_date. unfold_ops.
  rewrite Hargv, Htoday.
  repeat match goal with
         | |- context [match ?x with _ => _ end] =>
             match x with
             | context [match _ with _ => _ end] => fail 1
             | _ => destruct x
             end
         end; reflexivity.
Qed.

Lemma same_process_trans (a b c : World) :
  same_process a b -> same_process b c -> same_process a c.
Proof. unfold same_process. intros (H1 & H2) (K1 & K2). split; congruence. Qed.

Lemma init_apod_cache_process (w w' : World) (r : outcome unit) :
  init_apod_cache w = (r, w') -> same_process w w'.
Proof.
  unfold init_apod_cache. unfold_ops. intros H.
  destruct (cache_dir_exists w) eqn:Hdir; simpl in H;
    destruct (faults w) as [|[|] [|[|] [|[|] [|[|] ?]]]] eqn:?;
    simpl in *; case_run H; inversion H; subst; split; reflexivity.
Qed.

Lemma get_apod_id_from_db_process (E : Externals) (s : pystr)
    (w w' : World) (r : outcome Z) :
  get_apod_id_from_db E s w = (r, w') -> same_process w w'.
Proof.
  unfold get_apod_id_from_db, fetchone. unfold_ops. intros H.
  split_faults w; case_run H; inversion H; subst; split; reflexivity.
Qed.

Lemma save_image_file_process (data : bytes) (path : pystr)
    (w w' : World) (r : outcome bool) :
  save_image_file data path w = (r, w') -> same_process w w'.
Proof.
  unfold_ops. intros H.
  split_faults w; case_run H; inversion H; subst; split; reflexivity.
Qed.

Lemma add_apod_to_db_process (E : Externals) (t e p s : pystr)
    (w w' : World) (r : outcome Z) :
  add_apod_to_db E t e p s w = (r, w') -> same_process w w'.
Proof.
  unfold add_apod_to_db, try_except, add_apod_to_db_try. intros H.
  unfold bind at 1 in H.
  destruct (add_apod_to_db_write E t e p s w) as [[[cx i]|e0] w1] eqn:Hw;
    apply add_apod_to_db_write_cases in Hw as (_ & _ & _ & A1 & A2 & _).
  - unfold bind at 1 in H.
    destruct (report_and_close cx w1) as [[[]|e0] w2] eqn:Hlate;
      apply report_and_close_cases in Hlate as (_ & B1 & B2);
      unfold ret in H; injection H as <- <-; split; congruence.
  - unfold ret in H. injection H as <- <-. split; assumption.
Qed.

Lemma get_apod_info_process (n : Z) (w w' : World) (r : outcome ApodInfo) :
  get_apod_info n w = (r, w') -> same_process w w'.
Proof.
  unfold get_apod_info, fetchone. unfold_ops. intros H.
  split_faults w; case_run H; inversion H; subst; split; reflexivity.
Qed.

Lemma add_apod_to_cache_process (E : Externals) (d : date)
    (w w' : World) (r : outcome Z) :
  add_apod_to_cache E d w = (r, w') -> same_process w w'.
Proof.
  unfold add_apod_to_cache. intros H.
  destruct (apod_api_get_apod_info E d) as [info|].
  2:{ unfold ret in H. injection H as <- <-. split; reflexivity. }
  unfold bind at 1 in H.
  destruct (get_apod_id_from_db E _ w) as [[i|e] w1] eqn:Hlook;
    apply get_apod_id_from_db_process in Hlook.
  2:{ injection H as <- <-. exact Hlook. }
  destruct (negb (i =? 0)).
  { unfold ret in H. injection H as <- <-. exact Hlook. }
  unfold bind at 1 in H.
  destruct (save_image_file _ _ w1) as [[saved|e] w2] eqn:Hsave;
    apply save_image_file_process in Hsave.
  2:{ injection H as <- <-. eapply same_process_trans; eassumption. }
  destruct (negb saved).
  { unfold ret in H. injection H as <- <-.
    eapply same_process_trans; eassumption. }
  apply add_apod_to_db_process in H.
  eapply same_process_trans; [|exact H].
  eapply same_process_trans; eassumption.
Qed.

Lemma main_process (E : Externals) (w w' : World) (r : outcome unit) :
  main E w = (r, w') -> same_process w w'.
Proof.
  unfold main. intros H.
  unfold bind at 1 in H.
  destruct (get_apod_date E w) as [[d|e] w0] eqn:Hdate.
  2:{ injection H as <- <-. apply get_apod_date_pure in Hdate. subst.
      split; reflexivity. }
  apply get_apod_date_pure in Hdate. subst w0.
  unfold bind at 1 in H.
  destruct (init_apod_cache w) as [[[]|e] w1] eqn:Hinit;
    apply init_apod_cache_process in Hinit.
  2:{ injection H as <- <-. exact Hinit. }
  unfold bind at 1 in H.
  destruct (add_apod_to_cache E d w1) as [[i|e] w2] eqn:Hadd;
    apply add_apod_to_cache_process in Hadd.
  2:{ injection H as <- <-. eapply same_process_trans; eassumption. }
  unfold bind at 1 in H.
  destruct (get_apod_info i w2) as [[info|e] w3] eqn:Hget;
    apply get_apod_info_process in Hget.
  2:{ injection H as <- <-.
      eapply same_process_trans; [|exact Hget].
      eapply same_process_trans; eassumption. }
  unfold set_desktop_background_image, modify in H.
  injection H as <- <-.
  destruct Hinit as (A1 & A2), Hadd as (B1 & B2), Hget as (C1 & C2).
  split; simpl; congruence.
Qed.

Lemma ascending_id_inj (lo : Z) (rows : list Row) (a b : Row) :
  ascending lo rows = true -> In a rows -> In b rows -> id a = id b ->
  a = b.
Proof.
  revert lo. induction rows as [|x rest IH]; intros lo Hasc Ha Hb Hid;
    [contradiction|].
  simpl in Hasc. apply andb_true_iff in Hasc as (_ & Hrest).
  pose proof (ascending_above _ _ Hrest) as Habove.
  rewrite Forall_forall in Habove.
  destruct Ha as [-> | Ha], Hb as [-> | Hb].
  - reflexivity.
  - specialize (Habove b Hb). lia.
  - specialize (Habove a Ha). lia.
  - now apply (IH (id x)).
Qed.

Lemma index_ok_no_zero (w : World) :
  index_ok w ->
  forall rows, image_data w = Some rows -> Forall (fun r => id r <> 0) rows.
Proof.
  intros Hok rows Hrows. unfold index_ok in Hok. rewrite Hrows in Hok.
  destruct Hok as (Hasc & _). apply ascending_above in Hasc.
  eapply Forall_impl; [|exact Hasc]. simpl. intros; lia.
Qed.

Lemma init_apod_cache_index_ok (w w' : World) (r : outcome unit) :
  index_ok w -> init_apod_cache w = (r, w') -> index_ok w'.
Proof.
  intros Hok Hrun.
  apply init_apod_cache_cases in Hrun as (_ & _ & [Ht | (_ & Ht)] & _);
    unfold index_ok in *; rewrite Ht; [exact Hok|].
  split; [reflexivity|constructor].
Qed.

(** What is known after a run of [main] that completed. *)
Lemma main_completed (E : Externals) (w w' : World) :
  index_ok w -> main E w = (Ok tt, w') ->
  exists d info rows row,
    get_apod_date E w = (Ok d, w)
    /\ apod_api_get_apod_info E d = Some info
    /\ image_data w' = Some rows /\ In row rows
    /\ sha256 row
       = upper_hex_of
           (sha256_digest E
              (requests_get_content E (get_apod_image_url E info)))
    /\ background w' = Some (file_path row)
    /\ index_ok w'
    /\ cache_dir_exists w' = true.
Proof.
  intros Hok Hrun.
  unfold main in Hrun. unfold bind at 1 in Hrun.
  destruct (get_apod_date E w) as [[d|e] w0] eqn:Hdate; [|discriminate].
  pose proof (get_apod_date_pure _ _ _ _ Hdate). subst w0.
  unfold bind at 1 in Hrun.
  destruct (init_apod_cache w) as [[[]|e] w1] eqn:Hinit; [|discriminate].
  pose proof (init_apod_cache_index_ok _ _ _ Hok Hinit) as Hok1.
  apply init_apod_cache_cases in Hinit as (_ & _ & _ & Hdone).
  destruct (Hdone eq_refl) as (Hdir1 & _).
  unfold bind at 1 in Hrun.
  destruct (add_apod_to_cache E d w1) as [[i|e] w2] eqn:Hadd; [|discriminate].
  pose proof (add_apod_to_cache_index_ok _ _ _ _ _ Hok1 Hadd) as Hok2.
  unfold bind at 1 in Hrun.
  destruct (get_apod_info i w2) as [[got|e] w3] eqn:Hget; [|discriminate].
  unfold set_desktop_background_image, modify in Hrun.
  injection Hrun as <-.
  apply get_apod_info_cases in Hget
    as ((G1 & _ & G3 & _) & rows2 & row & Ht2 & Hin & Hid & ->).
  assert (Hnz : i <> 0).
  { pose proof (index_ok_no_zero _ Hok2 _ Ht2) as Hall.
    rewrite Forall_forall in Hall. specialize (Hall row Hin). congruence. }
  assert (Hok3 : index_ok (set_background (Some (file_path row)) w3)).
  { unfold index_ok in *. simpl. now rewrite G1. }
  destruct (apod_api_get_apod_info E d) as [info|] eqn:Hapi.
  2:{ unfold add_apod_to_cache in Hadd. rewrite Hapi in Hadd.
      unfold ret in Hadd. congruence. }
  unfold index_ok in Hok2. rewrite Ht2 in Hok2. destruct Hok2 as (Hasc2 & _).
  exists d, info, rows2, row.
  destruct (add_apod_to_cache_cases E d info w1 w2 _ Hapi Hadd)
    as (_ & [(? & Hr & _) | [(rows & Ht & Hf & Hr & (S1 & _ & S3 & _) & _)
             | [(rows & _ & _ & Hr & _)
               | (rows & j & Ht & _ & _ & Hr & Hdir2 & Ht' & _)]]]).
  - discriminate.
  - injection Hr as Hr.
    destruct (found_id_some _ _ Hf) as (r0 & Hin0 & Hfp0 & Hid0).
    assert (rows2 = rows) by congruence. subst rows2.
    repeat split; try assumption; try (simpl; congruence).
    rewrite (ascending_id_inj 0 rows row r0 Hasc2 Hin Hin0); [exact Hfp0|].
    congruence.
  - congruence.
  - destruct Hr as [Hr | Hr]; [|congruence].
    injection Hr as Hr. subst j.
    set (new := mkRow i (d_title info) (d_explanation info)
                      (determine_apod_file_path E (d_title info)
                         (get_apod_image_url E info))
                      (upper_hex_of
                         (sha256_digest E
                            (requests_get_content E
                               (get_apod_image_url E info))))) in *.
    assert (rows2 = insert_row new rows) by congruence. subst rows2.
    repeat split; try assumption; try (simpl; congruence).
    rewrite (ascending_id_inj 0 _ row new Hasc2 Hin); [reflexivity| |].
    + apply insert_row_in. now left.
    + exact Hid.
Qed.

(** A run of [main] that completes has set the desktop to the file of a
    row of the index, and that row carries the fingerprint of the bytes
    downloaded for the date of the run.  The run also had a picture for
    its date and leaves the index well formed. *)
Theorem main_sets_cached_picture (E : Externals) (w w' : World)
    (Hok : index_ok w)
    (Hrun : main E w = (Ok tt, w')) :
  exists d info rows row,
    get_apod_date E w = (Ok d, w)
    /\ apod_api_get_apod_info E d = Some info
    /\ image_data w' = Some rows /\ In row rows
    /\ sha256 row
       = upper_hex_of
           (sha256_digest E
              (requests_get_content E (get_apod_image_url E info)))
    /\ background w' = Some (file_path row)
    /\ index_ok w'.
Proof.
  destruct (main_completed E w w' Hok Hrun)
    as (d & info & rows & row & H1 & H2 & H3 & H4 & H5 & H6 & H7 & _).
  exists d, info, rows, row. auto 10.
Qed.

Lemma main_sets_cached_picture_witness :
  let w := Sample.fresh [Sample.script; u "2024-01-01"] (mkDate 2024 1 5) in
  exists row,
    In row [mkRow 1 (u "Test") (u "First light")
              (u "/home/me/ImageCacheDir/Test.jpg")
              (u "B5D4045C3F466FA91FE2CC6ABE79232A1A57CDF104F7A26E716E0A1E2789DF78")]
    /\ background (snd (main Sample.env w)) = Some (file_path row).
Proof.
  cbv zeta.
  destruct (main_sets_cached_picture Sample.env
              (Sample.fresh [Sample.script; u "2024-01-01"] (mkDate 2024 1 5))
              (snd (main Sample.env
                      (Sample.fresh [Sample.script; u "2024-01-01"]
                                    (mkDate 2024 1 5)))))
    as (d & info & rows & row & _ & _ & Ht & Hin & _ & Hbg & _).
  - exact I.
  - vm_compute. reflexivity.
  - exists row. split; [|exact Hbg].
    vm_compute in Ht. injection Ht as <-. exact Hin.
Defined.

Lemma clear_split (a b : nat) (w : World) :
  clear (a + b) w ->
  clear a w /\ forallb negb (firstn b (skipn a (faults w))) = true.
Proof.
  unfold clear. generalize (faults w) as l.
  induction a as [|a IH]; intros l H; simpl in *.
  - split; [reflexivity|exact H].
  - destruct l as [|f l]; simpl in *.
    + split; [reflexivity|]. now destruct b.
    + apply andb_true_iff in H as (Hf & Hl).
      destruct (IH l Hl) as (Ha & Hb). rewrite Hf, Ha. auto.
Qed.

Lemma clear_after (a b : nat) (w w' : World) :
  clear (a + b) w -> faults w' = skipn a (faults w) -> clear b w'.
Proof.
  intros H Hf. unfold clear. rewrite Hf. now apply (clear_split a b w).
Qed.

Lemma init_apod_cache_run (w : World) (rows : list Row) :
  cache_dir_exists w = true -> image_data w = Some rows -> clear 3 w ->
  exists w', init_apod_cache w = (Ok tt, w') /\ same_store w w'
             /\ faults w' = skipn 3 (faults w).
Proof.
  unfold clear, init_apod_cache. unfold_ops.
  intros Hdir Htab Hclear. rewrite Hdir. simpl.
  split_faults w; try discriminate;
    repeat first [ rewrite Hdir | rewrite Htab
                 | match goal with Hf : faults w = _ |- _ => rewrite Hf end
                 | progress simpl ];
    eexists; (split; [reflexivity|]); simpl;
    rewrite ?Htab; repeat split; auto.
Qed.

Lemma get_apod_info_run_faults (n : Z) (w : World) (rows : list Row) :
  cache_dir_exists w = true -> image_data w = Some rows -> clear 2 w ->
  exists w',
    get_apod_info n w
    = (match filter (fun r => id r =? n) rows with
       | row :: _ => Ok (info_of row)
       | [] => Raise TypeError
       end, w')
    /\ same_store w w' /\ faults w' = skipn 2 (faults w).
Proof.
  unfold clear, get_apod_info, fetchone, info_of. unfold_ops.
  intros Hdir Htab Hclear.
  split_faults w; try discriminate;
    repeat first [ rewrite Hdir | rewrite Htab
                 | match goal with Hf : faults w = _ |- _ => rewrite Hf end
                 | progress simpl ];
    destruct (filter _ rows); simpl; eexists; (split; [reflexivity|]);
    repeat split; auto.
Qed.

(** Running the script again.  After a run that completed, a second run
    with the same command line on the same day, in which the database
    does not fail, completes too and changes nothing: no row, no file,
    and the desktop keeps the same image. *)
Theorem main_rerun (E : Externals) (w w1 : World)
    (Hok : index_ok w)
    (Hrun : main E w = (Ok tt, w1))
    (Hclear : clear 7 w1) :
  exists w2, main E w1 = (Ok tt, w2) /\ same_store w1 w2.
Proof.
  pose proof (main_process _ _ _ _ Hrun) as Hproc.
  destruct (main_completed E w w1 Hok Hrun)
    as (d & info & rows & row & Hdate & Hapi & Htab & Hin & Hfp & Hbg
        & Hok1 & Hdir).
  assert (Hdate1 : get_apod_date E w1 = (Ok d, w1)).
  { pose proof (get_apod_date_same_process E w w1 Hproc) as Hfst.
    rewrite Hdate in Hfst. simpl in Hfst.
    destruct (get_apod_date E w1) as [r0 w0] eqn:Hd1.
    pose proof (get_apod_date_pure _ _ _ _ Hd1). subst w0.
    simpl in Hfst. now subst r0. }
  unfold index_ok in Hok1. rewrite Htab in Hok1.
  destruct (init_apod_cache_run w1 rows Hdir Htab)
    as (wa & Hinit & (A1 & A2 & A3 & A4) & Afaults).
  { apply (clear_split 3 4 w1 Hclear). }
  pose proof (clear_after 3 4 w1 wa Hclear Afaults) as Hclear4.
  destruct (add_apod_to_cache_hit E d info wa rows row Hapi)
    as (wb & Hadd & (B1 & B2 & B3 & B4) & Bfaults); try congruence.
  { apply (clear_split 2 2 wa Hclear4). }
  pose proof (clear_after 2 2 wa wb Hclear4 Bfaults) as Hclear2.
  destruct (get_apod_info_run_faults (id row) wb rows)
    as (wc & Hget & (C1 & C2 & C3 & C4) & _); try congruence.
  assert (Hfilter : exists rest,
             filter (fun r => id r =? id row) rows = row :: rest).
  { destruct Hok1 as (Hasc & _).
    destruct (filter (fun r => id r =? id row) rows) as [|x rest] eqn:Hf.
    - exfalso.
      assert (Hx : In row (filter (fun r => id r =? id row) rows))
        by (apply filter_In; split; [exact Hin|apply Z.eqb_refl]).
      rewrite Hf in Hx. contradiction.
    - exists rest. f_equal.
      assert (Hx : In x (filter (fun r => id r =? id row) rows))
        by (rewrite Hf; now left).
      apply filter_In in Hx as (Hxin & Hxid). apply Z.eqb_eq in Hxid.
      apply (ascending_id_inj 0 rows x row Hasc Hxin Hin Hxid). }
  assert (Hget' : get_apod_info (id row) wb = (Ok (info_of row), wc)).
  { rewrite Hget. destruct Hfilter as (rest & ->). reflexivity. }
  exists (set_background (Some (file_path row)) wc).
  split.
  - unfold main. unfold bind at 1. rewrite Hdate1.
    unfold bind at 1. rewrite Hinit.
    unfold bind at 1. rewrite Hadd.
    unfold bind at 1. rewrite Hget'. reflexivity.
  - repeat split; simpl; congruence.
Qed.

Lemma main_rerun_witness :
  let w := Sample.fresh [Sample.script; u "2024-01-01"] (mkDate 2024 1 5) in
  let w1 := snd (main Sample.env w) in
  exists w2, main Sample.env w1 = (Ok tt, w2) /\ same_store w1 w2.
Proof.
  cbv zeta.
  refine (main_rerun Sample.env
            (Sample.fresh [Sample.script; u "2024-01-01"] (mkDate 2024 1 5))
            _ I _ _).
  - vm_compute. reflexivity.
  - vm_compute. reflexivity.
Defined.

(* ================================================================= *)
(** ** Further properties: the date *)

(** Whatever the command line, a date that [get_apod_date] returns is
    never after today; it is today itself when no date was given, and
    otherwise the date parsed from the first argument, which is then not
    before 1999-07-14.  Nothing is read or written. *)
Theorem get_apod_date_in_range (E : Externals) (w w' : World) (d : date)
    (Hrun : get_apod_date E w = (Ok d, w')) :
  w' = w
  /\ date_gtb d (today w) = false
  /\ ((List.length (argv w) <= 1)%nat /\ d = today w
      \/ (2 <= List.length (argv w))%nat
         /\ fromisoformat E (nth 1 (argv w) []) = Some d
         /\ date_ltb d MIN_APOD_DATE = false).
Proof.
  split; [exact (get_apod_date_pure _ _ _ _ Hrun)|].
  unfold get_apod_date in Hrun. unfold_ops.
  destruct (1 <=? Z.of_nat (List.length (argv w)) - 1) eqn:Hn.
  - apply Z.leb_le in Hn.
    destruct (fromisoformat E (nth 1 (argv w) [])) as [p|]; [|discriminate].
    destruct (date_ltb p MIN_APOD_DATE) eqn:Hlt; [discriminate|].
    destruct (date_gtb p (today w)) eqn:Hgt; [discriminate|].
    injection Hrun as <- _. split; [exact Hgt|]. right.
    repeat split; [lia|exact Hlt].
  - apply Z.leb_gt in Hn. injection Hrun as <- _. split.
    + unfold date_gtb, date_ltb.
      rewrite !Z.ltb_irrefl, !Z.eqb_refl. reflexivity.
    + left. split; [lia|reflexivity].
Qed.

Lemma get_apod_date_in_range_witness :
  let w := Sample.fresh [Sample.script; u "2023-12-24"] (mkDate 2024 1 5) in
  date_gtb (mkDate 2023 12 24) (today w) = false
  /\ date_ltb (mkDate 2023 12 24) MIN_APOD_DATE = false.
Proof.
  cbv zeta.
  destruct (get_apod_date_in_range Sample.env
              (Sample.fresh [Sample.script; u "2023-12-24"] (mkDate 2024 1 5))
              _ (mkDate 2023 12 24) eq_refl)
    as (_ & Hgt & [(Hlen & _) | (_ & _ & Hlt)]).
  - simpl in Hlen. lia.
  - split; [exact Hgt|exact Hlt].
Defined.

(** A first argument that is not a date ends the run with the script's
    abort exit before anything is read or written. *)
Theorem main_rejects_malformed_date (E : Externals) (w : World)
    (prog s : pystr) (rest : list pystr)
    (Hargv : argv w = prog :: s :: rest)
    (Hbad : fromisoformat E s = None) :
  get_apod_date E w = (Raise (SystemExit "Script execution aborted"), w)
  /\ main E w = (Raise (SystemExit "Script execution aborted"), w).
Proof.
  assert (Hdate : get_apod_date E w
                  = (Raise (SystemExit "Script execution aborted"), w)).
  { unfold get_apod_date, bind, get_world. rewrite Hargv.
    change (nth 1 (prog :: s :: rest) []) with s. rewrite Hbad.
    replace (1 <=? Z.of_nat (List.length (prog :: s :: rest)) - 1)
      with true; [reflexivity|].
    symmetry. apply Z.leb_le. simpl List.length. lia. }
  split; [exact Hdate|].
  unfold main, bind at 1. now rewrite Hdate.
Qed.

Lemma main_rejects_malformed_date_witness :
  let w := Sample.fresh [Sample.script; u "14/07/1999"] (mkDate 2024 1 5) in
  main Sample.env w = (Raise (SystemExit "Script execution aborted"), w).
Proof.
  cbv zeta.
  exact (proj2 (main_rejects_malformed_date Sample.env
                  (Sample.fresh [Sample.script; u "14/07/1999"]
                                (mkDate 2024 1 5))
                  Sample.script (u "14/07/1999") [] eq_refl eq_refl)).
Defined.

(* ================================================================= *)
(** ** Further properties: the cache *)




(** Every row has its file.  If each row of the index points at a file
    that was written, this is still so after a call of
    [add_apod_to_cache], however the call ends: a row is only added once
    its file is on disk. *)
Theorem add_apod_to_cache_backed (E : Externals) (d : date)
    (w w' : World) (r : outcome Z)
    (Hbacked : backed w)
    (Hrun : add_apod_to_cache E d w = (r, w')) :
  backed w'.
Proof.
  unfold backed in *. intros rows' Hrows'.
  destruct (apod_api_get_apod_info E d) as [info|] eqn:Hapi.
  - destruct (add_apod_to_cache_cases E d info w w' r Hapi Hrun)
      as (_ & [(e & _ & (S1 & S2 & _)) | [(rs & _ & _ & _ & (S1 & S2 & _) & _)
               | [(rs & Ht0 & _ & _ & Ht & _ & Hf)
                 | (rs & i & Ht & _ & _ & _ & _ & Ht' & Hf)]]]).
    + rewrite S2. apply Hbacked. congruence.
    + rewrite S2. apply Hbacked. congruence.
    + assert (Hold : Forall (fun x => In (file_path x) (map fst (files w)))
                            rows') by (apply Hbacked; congruence).
      destruct Hf as [-> | ->]; [exact Hold|].
      eapply Forall_impl; [|exact Hold]. simpl. auto.
    + assert (rows' = insert_row
                        (mkRow i (d_title info) (d_explanation info)
                           (determine_apod_file_path E (d_title info)
                              (get_apod_image_url E info))
                           (upper_hex_of
                              (sha256_digest E
                                 (requests_get_content E
                                    (get_apod_image_url E info))))) rs)
        by congruence.
      subst rows'. rewrite Hf. apply Forall_forall. intros x Hx.
      apply insert_row_in in Hx as [-> | Hx].
      * simpl. now left.
      * pose proof (Hbacked rs Ht) as Hold.
        rewrite Forall_forall in Hold. simpl. right. now apply Hold.
  - unfold add_apod_to_cache in Hrun. rewrite Hapi in Hrun.
    unfold ret in Hrun. injection Hrun as <- <-. now apply Hbacked.
Qed.

Lemma add_apod_to_cache_backed_witness :
  backed (snd (add_apod_to_cache Sample.env Sample.day3 Sample.cached)).
Proof.
  refine (add_apod_to_cache_backed Sample.env Sample.day3
            Sample.cached _ _ _ (surjective_pairing _)).
  intros rows Hrows. injection Hrows as <-.
  repeat constructor.
Defined.

(** Without the table.  Called before [init_apod_cache] created the
    table, [add_apod_to_cache] returns 0 only when the service has no
    picture for the date, a case in which it does not open the database
    at all.  When the service has a picture, the fingerprint query
    raises and nothing catches it: the call ends in an exception
    ([OperationalError], the database could not be used), not in the
    value 0.  In both cases nothing is written. *)
Theorem add_apod_to_cache_without_table (E : Externals) (d : date)
    (w : World)
    (Hnone : image_data w = None) :
  match apod_api_get_apod_info E d with
  | None => add_apod_to_cache E d w = (Ok 0, w)
  | Some _ =>
      exists w', add_apod_to_cache E d w = (Raise OperationalError, w')
                 /\ same_store w w'
  end.
Proof.
  destruct (apod_api_get_apod_info E d) as [info|] eqn:Hapi.
  - unfold add_apod_to_cache. rewrite Hapi. unfold bind at 1.
    destruct (get_apod_id_from_db E _ w) as [[i|e] w'] eqn:Hlook.
    + apply get_apod_id_from_db_cases in Hlook as (_ & Hval).
      destruct (Hval i eq_refl) as (_ & rows & Ht & _). congruence.
    + exists w'. split.
      * f_equal. f_equal. clear - Hlook Hnone.
        unfold get_apod_id_from_db, fetchone in Hlook.
        rewrite str_upper_hexdigest in Hlook. unfold_ops.
        rewrite nul_free_upper_hex in Hlook. simpl in Hlook.
        split_faults w; case_run Hlook; congruence.
      * now apply get_apod_id_from_db_cases in Hlook as (Hsame & _).
  - unfold add_apod_to_cache. now rewrite Hapi.
Qed.

Lemma add_apod_to_cache_without_table_witness :
  let w := set_cache_dir_exists true
             (Sample.fresh [Sample.script] (mkDate 2024 1 5)) in
  (exists w', add_apod_to_cache Sample.env Sample.day1 w
              = (Raise OperationalError, w')
              /\ same_store w w')
  /\ add_apod_to_cache Sample.env Sample.day4 w = (Ok 0, w).
Proof.
  cbv zeta. split.
  - exact (add_apod_to_cache_without_table Sample.env Sample.day1
             (set_cache_dir_exists true
                (Sample.fresh [Sample.script] (mkDate 2024 1 5)))
             eq_refl).
  - exact (add_apod_to_cache_without_table Sample.env Sample.day4
             (set_cache_dir_exists true
                (Sample.fresh [Sample.script] (mkDate 2024 1 5)))
             eq_refl).
Defined.

(* ================================================================= *)
(** ** Further properties: file names *)

Lemma is_word_not_space (c : N) : is_word c = true -> isspace c = false.
Proof.
  unfold is_word, isspace, cp_between, cp_underscore. intros H.
  repeat rewrite ?orb_true_iff, ?andb_true_iff in H.
  rewrite ?N.leb_le, ?N.eqb_eq in H.
  repeat rewrite ?orb_false_iff, ?andb_false_iff.
  rewrite ?N.leb_gt, ?N.eqb_neq. lia.
Qed.

Lemma is_word_not_blank (c : N) : is_word c = true -> (c =? cp_space)%N = false.
Proof.
  unfold is_word, cp_between, cp_underscore, cp_space. intros H.
  repeat rewrite ?orb_true_iff, ?andb_true_iff in H.
  rewrite ?N.leb_le, ?N.eqb_eq in H. apply N.eqb_neq. lia.
Qed.

Lemma filter_all {A} (f : A -> bool) (l : list A) :
  forallb f l = true -> filter f l = l.
Proof.
  induction l as [|x l IH]; simpl; [reflexivity|].
  intros H. apply andb_true_iff in H as (Hx & Hl).
  now rewrite Hx, IH.
Qed.

Lemma forallb_filter {A} (f : A -> bool) (l : list A) :
  forallb f (filter f l) = true.
Proof.
  induction l as [|x l IH]; simpl; [reflexivity|].
  destruct (f x) eqn:Hx; simpl; [now rewrite Hx|exact IH].
Qed.

Lemma strip_word_only (s : pystr) : forallb is_word s = true -> strip s = s.
Proof.
  intros H. apply stripped_of_strip. exists [], []. rewrite app_nil_r.
  repeat split.
  - destruct s as [|c t]; simpl; [trivial|].
    simpl in H. apply andb_true_iff in H as (Hc & _).
    now apply is_word_not_space.
  - destruct (rev s) as [|c t] eqn:Hr; simpl; [trivial|].
    apply is_word_not_space.
    rewrite forallb_forall in H. apply H. apply in_rev.
    rewrite Hr. now left.
Qed.

Lemma filter_length_le {A} (f : A -> bool) (l : list A) :
  (List.length (filter f l) <= List.length l)%nat.
Proof.
  induction l as [|x l IH]; simpl; [lia|]. destruct (f x); simpl; lia.
Qed.

Lemma stripped_length (s : pystr) :
  (List.length (strip s) <= List.length s)%nat.
Proof.
  destruct (strip_stripped_of s) as (lead & trail & Heq & _).
  rewrite Heq at 2. rewrite !length_app. lia.
Qed.

(** The shape of every file name.  The name is a stem, a dot and an
    extension; the stem holds only ASCII letters, digits and underscores
    and is no longer than the title; the extension has no dot, so that
    the extension of the file name is the extension of the address. *)
Theorem determine_apod_file_name_shape (image_title image_url : pystr) :
  (exists stem ext,
      determine_apod_file_name image_title image_url = stem ++ cp_dot :: ext
      /\ forallb is_word stem = true
      /\ (List.length stem <= List.length image_title)%nat
      /\ ~ In cp_dot ext)
  /\ last_item (split cp_dot
                  (determine_apod_file_name image_title image_url))
     = last_item (split cp_dot image_url).
Proof.
  pose proof (determine_apod_file_name_eq image_title image_url) as Heq.
  destruct (split_last image_url) as (Hno & _).
  split.
  - eexists _, _. split; [exact Heq|]. split; [apply forallb_filter|].
    split; [|exact Hno].
    eapply Nat.le_trans; [apply filter_length_le|].
    rewrite length_map. apply stripped_length.
  - apply final_piece_last. split; [exact Hno|].
    right. eexists. exact Heq.
Qed.

(** A title made of letters, digits and underscores only is kept as it
    is; in particular cleaning a title a second time changes nothing. *)
Theorem determine_apod_file_name_clean_title (image_title image_url : pystr)
    (Hclean : forallb is_word image_title = true) :
  determine_apod_file_name image_title image_url
  = image_title ++ cp_dot :: last_item (split cp_dot image_url)
  /\ forall other_title,
       determine_apod_file_name
         (re_sub_nonword
            (replace cp_space cp_underscore (strip other_title)))
         image_url
       = determine_apod_file_name other_title image_url.
Proof.
  assert (Hkeep : forall t, forallb is_word t = true ->
            filter is_word (map space_to_underscore (strip t)) = t).
  { intros t Ht. rewrite (strip_word_only t Ht).
    replace (map space_to_underscore t) with t.
    - now apply filter_all.
    - clear - Ht. induction t as [|c t IH]; [reflexivity|].
      simpl in Ht. apply andb_true_iff in Ht as (Hc & Ht).
      simpl. unfold space_to_underscore at 1.
      rewrite (is_word_not_blank c Hc). now rewrite <- IH. }
  split.
  - rewrite determine_apod_file_name_eq. now rewrite Hkeep.
  - intros other.
    assert (Hstem : re_sub_nonword
                      (replace cp_space cp_underscore (strip other))
                    = filter is_word (map space_to_underscore (strip other)))
      by apply re_sub_nonword_filter.
    rewrite Hstem, (determine_apod_file_name_eq other).
    rewrite determine_apod_file_name_eq.
    now rewrite Hkeep by apply forallb_filter.
Qed.

Lemma determine_apod_file_name_clean_title_witness :
  determine_apod_file_name (u "Orion_Nebula_M42") (u "http://x/m42.jpg")
  = u "Orion_Nebula_M42.jpg".
Proof.
  exact (proj1 (determine_apod_file_name_clean_title
                  (u "Orion_Nebula_M42") (u "http://x/m42.jpg") eq_refl)).
Defined.

(* ================================================================= *)
(** ** Further properties: fingerprints, titles and ids *)

Lemma upper_upper_hex_of_byte (uf : N -> list N) (b : byte) :
  upper uf (hex_of_byte hex_digit_upper b) = hex_of_byte hex_digit_upper b.
Proof. destruct b; reflexivity. Qed.

Lemma upper_upper_hex (uf : N -> list N) (digest : bytes) :
  upper uf (upper_hex_of digest) = upper_hex_of digest.
Proof.
  unfold upper, upper_hex_of.
  induction digest as [|b rest IH]; [reflexivity|].
  cbn [flat_map]. rewrite flat_map_app, IH. f_equal.
  apply (upper_upper_hex_of_byte uf b).
Qed.

(** The case of a hexadecimal fingerprint does not matter: the query and
    the insert behave the same on the lower-case digest that [hexdigest]
    gives and on the same digest in upper case. *)
Theorem fingerprint_case_insensitive (E : Externals) (digest : bytes)
    (t e p : pystr) (w : World) :
  get_apod_id_from_db E (upper_hex_of digest) w
  = get_apod_id_from_db E (hexdigest_of digest) w
  /\ add_apod_to_db E t e p (upper_hex_of digest) w
     = add_apod_to_db E t e p (hexdigest_of digest) w.
Proof.
  assert (Hup : str_upper E (upper_hex_of digest)
                = str_upper E (hexdigest_of digest)).
  { unfold str_upper. now rewrite upper_upper_hex, upper_hexdigest. }
  unfold get_apod_id_from_db, add_apod_to_db, add_apod_to_db_try,
    add_apod_to_db_write.
  now rewrite Hup.
Qed.

Lemma get_all_apod_titles_run (w : World) (rows : list Row) :
  cache_dir_exists w = true -> image_data w = Some rows -> clear 2 w ->
  exists w', get_all_apod_titles w = (Ok (map title rows), w')
             /\ same_store w w'.
Proof.
  unfold clear, get_all_apod_titles. unfold_ops.
  intros Hdir Htab Hclear.
  split_faults w; try discriminate;
    repeat first [ rewrite Hdir | rewrite Htab
                 | match goal with Hf : faults w = _ |- _ => rewrite Hf end
                 | progress simpl ];
    eexists; (split; [reflexivity|]); repeat split.
Qed.

(** [get_all_apod_titles] after an insert: the titles in rowid order,
    those that were there with the new title at the place of its rowid.
    That place is the end whenever the rowid was given in sequence, that
    is unless the largest rowid is in use.  Listing the titles changes
    nothing. *)
Theorem get_all_apod_titles_after_insert (E : Externals) (t e p s : pystr)
    (w w1 : World) (i : Z) (rows : list Row)
    (Hok : index_ok w)
    (Htab : image_data w = Some rows)
    (Hins : add_apod_to_db E t e p s w = (Ok i, w1))
    (Hnz : i <> 0)
    (Hclear : clear 2 w1) :
  exists w2,
    get_all_apod_titles w1
    = (Ok (map title (insert_row (mkRow i t e p (str_upper E s)) rows)), w2)
    /\ same_store w1 w2
    /\ (next_rowid rows = Some i ->
        map title (insert_row (mkRow i t e p (str_upper E s)) rows)
        = map title rows ++ [t]).
Proof.
  destruct (add_apod_to_db_inserted E t e p s w w1 i Hok Hins Hnz)
    as (Hdir & rows0 & Ht & _ & _ & Ht').
  assert (rows0 = rows) by congruence. subst rows0.
  destruct (get_all_apod_titles_run w1 _ Hdir Ht' Hclear)
    as (w2 & Hrun & Hsame).
  exists w2. split; [exact Hrun|]. split; [exact Hsame|].
  intros Hnext. rewrite insert_row_above, map_app; [reflexivity|].
  now apply next_rowid_above.
Qed.

Lemma get_all_apod_titles_after_insert_witness :
  let w1 := snd (add_apod_to_db Sample.env (u "New") (u "Text")
                   (u "/home/me/ImageCacheDir/New.jpg") (u "00ff")
                   Sample.cached) in
  exists w2, get_all_apod_titles w1 = (Ok [u "Test"; u "New"], w2)
             /\ same_store w1 w2.
Proof.
  cbv zeta.
  destruct (get_all_apod_titles_after_insert Sample.env (u "New") (u "Text")
              (u "/home/me/ImageCacheDir/New.jpg") (u "00ff")
              Sample.cached _ 2 _
              ltac:(split; [reflexivity
                           |repeat constructor; intros []; discriminate])
              eq_refl (surjective_pairing _) ltac:(discriminate) eq_refl)
    as (w2 & Hrun & Hsame & _).
  exists w2. split; [exact Hrun|exact Hsame].
Defined.

Lemma fold_max_le (l : list Z) (a m : Z) :
  a <= m -> Forall (fun x => x <= m) l -> fold_left Z.max l a <= m.
Proof.
  revert a. induction l as [|x l IH]; intros a Ha Hall; simpl; [exact Ha|].
  inversion Hall as [|? ? Hx Hl]; subst. apply IH; [lia|exact Hl].
Qed.

(** Ids are handed out in sequence.  Two successful inserts, one after
    the other, never return the same id.  When the first id was the one
    in sequence and is not the largest rowid, the second is its
    successor, and the two rows are the last two of the table in that
    order. *)
Theorem successive_inserts_consecutive (E : Externals)
    (t1 e1 p1 s1 t2 e2 p2 s2 : pystr) (w w1 w2 : World) (i j : Z)
    (rows : list Row)
    (Htab : image_data w = Some rows)
    (Hfirst : add_apod_to_db E t1 e1 p1 s1 w = (Ok i, w1))
    (Hi : i <> 0)
    (Hsecond : add_apod_to_db E t2 e2 p2 s2 w1 = (Ok j, w2))
    (Hj : j <> 0) :
  i <> j
  /\ (next_rowid rows = Some i -> i < MAX_ROWID ->
      j = i + 1
      /\ image_data w2
         = Some (rows ++ [mkRow i t1 e1 p1 (str_upper E s1);
                          mkRow j t2 e2 p2 (str_upper E s2)])).
Proof.
  destruct (add_apod_to_db_cases E t1 e1 p1 s1 w w1 _ Hfirst)
    as (_ & _ & _ & [(Hr & _) | (rows0 & i' & Ht & Hn & _ & Ht1 & Hr)]);
    [congruence|].
  destruct Hr as [Hr | Hr]; [|congruence]. injection Hr as <-.
  assert (rows0 = rows) by congruence. subst rows0.
  destruct (add_apod_to_db_cases E t2 e2 p2 s2 w1 w2 _ Hsecond)
    as (_ & _ & _ & [(Hr & _) | (rows1 & j' & Ht' & Hn' & _ & Ht2 & Hr)]);
    [congruence|].
  destruct Hr as [Hr | Hr]; [|congruence]. injection Hr as <-.
  assert (rows1 = insert_row (mkRow i t1 e1 p1 (str_upper E s1)) rows)
    by congruence.
  subst rows1.
  destruct (new_rowid_cases _ _ _ Hn') as (Hfree & _).
  split.
  - rewrite Forall_forall in Hfree.
    apply (Hfree (mkRow i t1 e1 p1 (str_upper E s1))).
    apply insert_row_in. now left.
  - intros Hnext Hroom.
    pose proof (next_rowid_above _ _ Hnext) as Habove.
    rewrite (insert_row_above (mkRow i t1 e1 p1 (str_upper E s1)) rows)
      in * by exact Habove.
    assert (Hnext' : next_rowid (rows ++ [mkRow i t1 e1 p1 (str_upper E s1)])
                     = Some (i + 1)).
    { unfold next_rowid, max_rowid.
      destruct rows as [|x rest]; simpl.
      - replace (i <? MAX_ROWID) with true
          by (symmetry; now apply Z.ltb_lt). reflexivity.
      - inversion Habove as [|? ? Hx Hrest]; subst.
        rewrite map_app, fold_left_app. simpl.
        assert (Hle : fold_left Z.max (map id rest) (id x) <= i).
        { apply fold_max_le; [lia|]. rewrite Forall_map.
          eapply Forall_impl; [|exact Hrest]. simpl. intros; lia. }
        rewrite Z.max_r by exact Hle.
        replace (i <? MAX_ROWID) with true
          by (symmetry; now apply Z.ltb_lt). reflexivity. }
    rewrite (new_rowid_next _ _ _ Hnext') in Hn'. injection Hn' as <-.
    split; [reflexivity|].
    rewrite Ht2, insert_row_above, <- app_assoc; [reflexivity|].
    apply Forall_app. split.
    + eapply Forall_impl; [|exact Habove]. simpl. intros; lia.
    + repeat constructor. simpl. lia.
Qed.

Lemma successive_inserts_consecutive_witness :
  let w1 := snd (add_apod_to_db Sample.env (u "A") (u "a") (u "/p/A.jpg")
                   (u "0a") Sample.cached) in
  let w2 := snd (add_apod_to_db Sample.env (u "B") (u "b") (u "/p/B.jpg")
                   (u "0b") w1) in
  option_map (map id) (image_data w2) = Some [1; 2; 3].
Proof.
  cbv zeta.
  destruct (successive_inserts_consecutive Sample.env
              (u "A") (u "a") (u "/p/A.jpg") (u "0a")
              (u "B") (u "b") (u "/p/B.jpg") (u "0b")
              Sample.cached _ _ 2 3 _ eq_refl
              (surjective_pairing _) ltac:(discriminate)
              (surjective_pairing _) ltac:(discriminate))
    as (_ & Hseq).
  destruct (Hseq eq_refl eq_refl) as (_ & Ht2).
  rewrite Ht2. reflexivity.
Defined.

Lemma pystr_eqb_refl (a : pystr) : pystr_eqb a a = true.
Proof. now apply pystr_eqb_eq. Qed.

Lemma next_rowid_after (rows : list Row) (r : Row) :
  Forall (fun x => id x < id r) rows -> id r < MAX_ROWID ->
  next_rowid (rows ++ [r]) = Some (id r + 1).
Proof.
  intros Habove Hroom. unfold next_rowid, max_rowid.
  destruct rows as [|x rest]; simpl.
  - replace (id r <? MAX_ROWID) with true
      by (symmetry; now apply Z.ltb_lt). reflexivity.
  - inversion Habove as [|? ? Hx Hrest]; subst.
    rewrite map_app, fold_left_app. simpl.
    assert (Hle : fold_left Z.max (map id rest) (id x) <= id r).
    { apply fold_max_le; [lia|]. rewrite Forall_map.
      eapply Forall_impl; [|exact Hrest]. simpl. intros; lia. }
    rewrite Z.max_r by exact Hle.
    replace (id r <? MAX_ROWID) with true
      by (symmetry; now apply Z.ltb_lt). reflexivity.
Qed.

(** Two new pictures, one file name.  When two pictures that the index
    does not have are cached one after the other, both get a row (the
    last two rows of the table, in that order, when the rowids are given
    in sequence); if their titles and addresses give the same file name,
    the two rows share one path and the file there holds the bytes of
    the second picture; if the paths differ, each file holds its own
    picture. *)
Theorem add_apod_to_cache_name_collision (E : Externals)
    (d1 d2 : date) (info1 info2 : ApodDict) (w w1 w2 : World) (i1 i2 : Z)
    (Hok : index_ok w)
    (Hapi1 : apod_api_get_apod_info E d1 = Some info1)
    (Hapi2 : apod_api_get_apod_info E d2 = Some info2)
    (Hnew1 : not_indexed
               (upper_hex_of
                  (sha256_digest E
                     (requests_get_content E (get_apod_image_url E info1))))
               w)
    (Hnew2 : not_indexed
               (upper_hex_of
                  (sha256_digest E
                     (requests_get_content E (get_apod_image_url E info2))))
               w)
    (Hdiff : upper_hex_of
               (sha256_digest E
                  (requests_get_content E (get_apod_image_url E info1)))
             <> upper_hex_of
                  (sha256_digest E
                     (requests_get_content E (get_apod_image_url E info2))))
    (Hrun1 : add_apod_to_cache E d1 w = (Ok i1, w1))
    (Hnz1 : i1 <> 0)
    (Hrun2 : add_apod_to_cache E d2 w1 = (Ok i2, w2))
    (Hnz2 : i2 <> 0) :
  let url1 := get_apod_image_url E info1 in
  let url2 := get_apod_image_url E info2 in
  let path1 := determine_apod_file_path E (d_title info1) url1 in
  let path2 := determine_apod_file_path E (d_title info2) url2 in
  (exists rows2 row1 row2,
      image_data w2 = Some rows2 /\ In row1 rows2 /\ In row2 rows2
      /\ id row1 = i1 /\ id row2 = i2
      /\ file_path row1 = path1 /\ file_path row2 = path2
      /\ (forall rows, image_data w = Some rows ->
                       next_rowid rows = Some i1 -> i1 < MAX_ROWID ->
                       rows2 = rows ++ [row1; row2]))
  /\ read_file path2 (files w2) = Some (requests_get_content E url2)
  /\ (determine_apod_file_name (d_title info1) url1
      = determine_apod_file_name (d_title info2) url2 ->
      path1 = path2
      /\ read_file path1 (files w2) = Some (requests_get_content E url2))
  /\ (path1 <> path2 ->
      read_file path1 (files w2) = Some (requests_get_content E url1)).
Proof.
  cbv zeta.
  destruct (add_apod_to_cache_cases E d1 info1 w w1 _ Hapi1 Hrun1)
    as (_ & [(? & Hr & _) | [(rows & Ht & Hf & _)
             | [(rows & _ & _ & Hr & _)
               | (rows & j & Ht & _ & Hn1 & Hr & _ & Ht1 & Hf1)]]]);
    try congruence.
  { exfalso. destruct (found_id_some _ _ Hf) as (r0 & Hin & Hfp & _).
    specialize (Hnew1 rows Ht). rewrite Forall_forall in Hnew1.
    now apply (Hnew1 r0 Hin). }
  destruct Hr as [Hr | Hr]; [|congruence]. injection Hr as <-.
  set (row1 := mkRow i1 (d_title info1) (d_explanation info1)
                 (determine_apod_file_path E (d_title info1)
                    (get_apod_image_url E info1))
                 (upper_hex_of
                    (sha256_digest E
                       (requests_get_content E
                          (get_apod_image_url E info1))))) in *.
  destruct (add_apod_to_cache_cases E d2 info2 w1 w2 _ Hapi2 Hrun2)
    as (_ & [(? & Hr & _) | [(rows1 & Ht' & Hf & _)
             | [(rows1 & _ & _ & Hr & _)
               | (rows1 & k & Ht' & _ & Hn2 & Hr & _ & Ht2 & Hf2)]]]);
    try congruence.
  { exfalso. destruct (found_id_some _ _ Hf) as (r0 & Hin & Hfp & _).
    assert (rows1 = insert_row row1 rows) by congruence.
    subst rows1. apply insert_row_in in Hin as [-> | Hin].
    - simpl in Hfp. contradiction.
    - specialize (Hnew2 rows Ht). rewrite Forall_forall in Hnew2.
      now apply (Hnew2 r0 Hin). }
  destruct Hr as [Hr | Hr]; [|congruence]. injection Hr as <-.
  assert (rows1 = insert_row row1 rows) by congruence. subst rows1.
  set (row2 := mkRow i2 (d_title info2) (d_explanation info2)
                 (determine_apod_file_path E (d_title info2)
                    (get_apod_image_url E info2))
                 (upper_hex_of
                    (sha256_digest E
                       (requests_get_content E
                          (get_apod_image_url E info2))))) in *.
  split; [|split; [|split]].
  - exists (insert_row row2 (insert_row row1 rows)), row1, row2.
    split; [exact Ht2|]. split; [|split].
    + apply insert_row_in. right. apply insert_row_in. now left.
    + apply insert_row_in. now left.
    + repeat split. intros rows0 Ht0 Hnext Hroom.
      assert (rows0 = rows) by congruence. subst rows0.
      pose proof (next_rowid_above _ _ Hnext) as Habove.
      rewrite (insert_row_above row1 rows) in * by exact Habove.
      pose proof (next_rowid_after rows row1 Habove Hroom) as Hnext2.
      rewrite (new_rowid_next _ _ _ Hnext2) in Hn2.
      rewrite insert_row_above, <- app_assoc; [reflexivity|].
      injection Hn2 as Hi2. apply Forall_app. split.
      * eapply Forall_impl; [|exact Habove]. simpl. intros x Hx.
        change (id row1) with i1 in Hx. lia.
      * repeat constructor. simpl. lia.
  - rewrite Hf2. simpl. now rewrite pystr_eqb_refl.
  - intros Hname.
    assert (Hpath : determine_apod_file_path E (d_title info1)
                      (get_apod_image_url E info1)
                    = determine_apod_file_path E (d_title info2)
                        (get_apod_image_url E info2))
      by (unfold determine_apod_file_path; now rewrite Hname).
    split; [exact Hpath|].
    rewrite Hf2, Hpath. simpl. now rewrite pystr_eqb_refl.
  - intros Hpath. rewrite Hf2, Hf1. simpl.
    destruct (pystr_eqb _ _) eqn:Heq.
    + apply pystr_eqb_eq in Heq. congruence.
    + now rewrite pystr_eqb_refl.
Qed.

Lemma add_apod_to_cache_name_collision_witness :
  let w1 := snd (add_apod_to_cache Twins.env Sample.day1 Sample.prepared) in
  let w2 := snd (add_apod_to_cache Twins.env Sample.day2 w1) in
  option_map (map file_path) (image_data w2)
  = Some [u "/home/me/ImageCacheDir/Moon.jpg";
          u "/home/me/ImageCacheDir/Moon.jpg"]
  /\ read_file (u "/home/me/ImageCacheDir/Moon.jpg") (files w2)
     = Some (b_lit "ABC").
Proof.
  cbv zeta.
  pose proof (add_apod_to_cache_name_collision Twins.env
                Sample.day1 Sample.day2
                (mkApodDict (u "Moon!") (u "Full moon")
                            [(u "url", u "http://x/y.jpg")])
                (mkApodDict (u "Moon?") (u "New moon")
                            [(u "url", u "http://z/w.jpg")])
                Sample.prepared
                (snd (add_apod_to_cache Twins.env Sample.day1 Sample.prepared))
                (snd (add_apod_to_cache Twins.env Sample.day2
                        (snd (add_apod_to_cache Twins.env Sample.day1
                                Sample.prepared))))
                1 2
                (conj eq_refl (NoDup_nil _)) eq_refl eq_refl
                ltac:(intros rows Hrows; injection Hrows as <-; constructor)
                ltac:(intros rows Hrows; injection Hrows as <-; constructor)
                ltac:(vm_compute; discriminate)
                ltac:(vm_compute; reflexivity) ltac:(discriminate)
                ltac:(vm_compute; reflexivity) ltac:(discriminate))
    as (_ & _ & Hsame & _).
  destruct (Hsame eq_refl) as (_ & Hread).
  split; [|exact Hread].
  vm_compute. reflexivity.
Defined.

(* ================================================================= *)
(** ** Further properties: failures and recovery *)







Lemma determine_apod_file_name_shape_witness :
  last_item (split cp_dot
               (determine_apod_file_name (u " The Crab: M1 ")
                                         (u "http://x/img/m1.big.png")))
  = u "png".
Proof.
  exact (proj2 (determine_apod_file_name_shape
                  (u " The Crab: M1 ") (u "http://x/img/m1.big.png"))).
Defined.

Lemma fingerprint_case_insensitive_witness :
  get_apod_id_from_db Sample.env
    (upper_hex_of (SHA256.digest (b_lit "ABC"))) Sample.cached
  = get_apod_id_from_db Sample.env
      (hexdigest_of (SHA256.digest (b_lit "ABC"))) Sample.cached.
Proof.
  exact (proj1 (fingerprint_case_insensitive Sample.env
                  (SHA256.digest (b_lit "ABC")) [] [] [] Sample.cached)).
Defined.

(* ================================================================= *)
(** ** The database at its edges, on the sample machine *)

(** With the largest rowid in use the insert does not fail: the row gets
    an unused rowid and takes its place by rowid, before the last row. *)
Example insert_with_largest_rowid_in_use :
  let last := mkRow MAX_ROWID (u "Last") (u "l") (u "/p/L.jpg") (u "0E") in
  let w := set_image_data (Some [mkRow 1 (u "One") (u "o") (u "/p/O.jpg")
                                       (u "0D"); last])
                          Sample.prepared in
  let run := add_apod_to_db Sample.env (u "New") (u "n") (u "/p/N.jpg")
                            (u "0f") w in
  index_ok w
  /\ fst run = Ok 2
  /\ option_map (map id) (image_data (snd run)) = Some [1; 2; MAX_ROWID].
Proof.
  cbv zeta. split; [|split]; try (vm_compute; reflexivity).
  split; [reflexivity|]. repeat constructor; simpl; intuition discriminate.
Qed.

(** A NUL in the fingerprint: it can be stored, but the query for it is
    refused. *)
Example lookup_with_nul :
  let run := add_apod_to_db Sample.env (u "New") (u "n") (u "/p/N.jpg")
                            [48%N; 0%N] Sample.cached in
  fst run = Ok 2
  /\ fst (get_apod_id_from_db Sample.env [48%N; 0%N] (snd run))
     = Raise ProgrammingError.
Proof. cbv zeta. split; vm_compute; reflexivity. Qed.

(** A quote in the fingerprint: the answer is that of the altered
    statement, here the id of a row that does not carry the text. *)
Example lookup_with_quote :
  fst (get_apod_id_from_db Sample.env (u "x' OR '1'='1") Sample.cached)
  = Ok 1.
Proof. vm_compute. reflexivity. Qed.

(** After the commit: when the last step of the insert fails, the call
    returns 0 although the picture is stored, and the next call finds
    it. *)
Example failure_after_commit_then_hit :
  let w := Sample.failing [false; false; false; false; false; false; true]
                          Sample.cached in
  let run := add_apod_to_cache Sample.env Sample.day3 w in
  fst run = Ok 0
  /\ option_map (map id) (image_data (snd run)) = Some [1; 2]
  /\ fst (add_apod_to_cache Sample.env Sample.day3 (snd run)) = Ok 2.
Proof. cbv zeta. repeat split; vm_compute; reflexivity. Qed.
